(** * HurricaneFPGA host-side tools: a shallow embedding

    This development embeds the register-level controller of
    [HDL/tools/usb_host_control.py] (class [CynthionUSBHost]), the
    command builders and constant tables of [tools/test_descriptor.py],
    the injector of [tools/test_injection.py] (class [CynthionInjector])
    and their unit tests, and checks the statements the design document
    makes about them, followed by further properties of the same code.

    Conventions.
    - Python [int] is [Z]; [x << 8], [x | y], [x & y] are [Z.shiftl],
      [Z.lor], [Z.land].
    - [bytes] is a [list Z] whose elements lie in [0, 255].
    - A [dict] that is only looked up is a [gmap]; a [dict] that is
      iterated keeps its insertion order as an association list.
    - Register traffic is explicit: a computation threads the log of bus
      operations and asks a [device] for the outcome of each transfer.
      Console output never reaches the device and is left out. *)

From Stdlib Require Import ZArith Lia List Bool Ascii String.
From stdpp Require Import base option list gmap strings.
Import ListNotations.

Local Open Scope string_scope.
Local Open Scope list_scope.
Local Open Scope Z_scope.

(** ** Python string formatting *)

Module PyFormat.

(** The digit characters Python uses for [x] and [d] presentation. *)
Definition digit_char (d : Z) : ascii :=
  match d with
  | 0 => "0" | 1 => "1" | 2 => "2" | 3 => "3" | 4 => "4"
  | 5 => "5" | 6 => "6" | 7 => "7" | 8 => "8" | 9 => "9"
  | 10 => "a" | 11 => "b" | 12 => "c" | 13 => "d" | 14 => "e"
  | _ => "f"
  end%char.

(** Digits of a non-negative [n] in [base], most significant first.
    [fuel] bounds the number of digits. *)
Fixpoint digits (base : Z) (fuel : nat) (n : Z) : string :=
  match fuel with
  | O => EmptyString
  | S fuel' =>
      if n <? base then String (digit_char n) EmptyString
      else digits base fuel' (n / base) +:+ String (digit_char (n mod base)) EmptyString
  end.

(** A non-negative number has at most [log2 n + 1] digits in any base
    of at least two. *)
Definition digits_of (base n : Z) : string :=
  digits base (S (Z.to_nat (Z.log2 n))) n.

Fixpoint zeros (k : nat) : string :=
  match k with O => EmptyString | S k' => String "0"%char (zeros k') end.

(** Left padding with ['0'] up to [width] characters. *)
Definition zfill (width : nat) (s : string) : string :=
  zeros (width - String.length s) +:+ s.

(** [str(n)] and [f"{n}"] for an [int]. *)
Definition str (n : Z) : string :=
  if n <? 0 then "-" +:+ digits_of 10 (- n) else digits_of 10 n.

(** [f"{n:02x}"]: lowercase hexadecimal, sign first, zero padded so
    that the whole field is at least two characters wide. *)
Definition format_02x (n : Z) : string :=
  if n <? 0 then "-" +:+ zfill 1 (digits_of 16 (- n))
  else zfill 2 (digits_of 16 n).

(** [sep.join(parts)]. *)
Fixpoint join (sep : string) (parts : list string) : string :=
  match parts with
  | [] => EmptyString
  | [p] => p
  | p :: rest => p +:+ sep +:+ join sep rest
  end.

(** Occurrences of a character, [s.count(c)]. *)
Fixpoint count (c : ascii) (s : string) : nat :=
  match s with
  | EmptyString => O
  | String a s' => ((if Ascii.eqb a c then 1 else 0) + count c s')%nat
  end.

End PyFormat.

(** [x != 0], which is also the truth value of an [int] in a condition. *)
Definition nonzero (x : Z) : bool := negb (Z.eqb x 0).

(** ** The keyboard report decoder ([usb_host_control.py]) *)

(** Values stored in the dictionary [decode_keyboard_report] returns. *)
Inductive pyval : Type :=
| PyList (items : list string)
| PyStr (s : string).

(** [modifier_names]: iterated with [.items()], so insertion order is kept. *)
Definition modifier_names : list (Z * string) :=
  [ (0x01, "LEFT_CTRL"); (0x02, "LEFT_SHIFT"); (0x04, "LEFT_ALT");
    (0x08, "LEFT_GUI"); (0x10, "RIGHT_CTRL"); (0x20, "RIGHT_SHIFT");
    (0x40, "RIGHT_ALT"); (0x80, "RIGHT_GUI") ].

(** The literal of [keycode_names], in source order. *)
Definition keycode_names_items : list (Z * string) :=
  [ (0x04, "A"); (0x05, "B"); (0x06, "C"); (0x07, "D"); (0x08, "E"); (0x09, "F");
    (0x0A, "G"); (0x0B, "H"); (0x0C, "I"); (0x0D, "J"); (0x0E, "K"); (0x0F, "L");
    (0x10, "M"); (0x11, "N"); (0x12, "O"); (0x13, "P"); (0x14, "Q"); (0x15, "R");
    (0x16, "S"); (0x17, "T"); (0x18, "U"); (0x19, "V"); (0x1A, "W"); (0x1B, "X");
    (0x1C, "Y"); (0x1D, "Z");
    (0x1E, "1"); (0x1F, "2"); (0x20, "3"); (0x21, "4"); (0x22, "5");
    (0x23, "6"); (0x24, "7"); (0x25, "8"); (0x26, "9"); (0x27, "0");
    (0x28, "ENTER"); (0x29, "ESC"); (0x2A, "BACKSPACE"); (0x2B, "TAB");
    (0x2C, "SPACE"); (0x39, "CAPS_LOCK") ].

(** [keycode_names] is only looked up (with [.get]). *)
Definition keycode_names : gmap Z string := list_to_map keycode_names_items.

(** [report[i]]; every use is guarded by [len(report) == 8]. *)
Definition byte_at (report : list Z) (i : nat) : Z := nth i report 0.

(** [report.hex()]. *)
Definition bytes_hex (report : list Z) : string :=
  PyFormat.join EmptyString (map PyFormat.format_02x report).

(** [keycode_names.get(b, f"KEY_{b:02x}")]. *)
Definition key_name (b : Z) : string :=
  default ("KEY_" +:+ PyFormat.format_02x b) (keycode_names !! b).

(** The body of the [for bit, name in modifier_names.items()] loop. *)
Definition modifier_step (byte0 : Z) (acc : list string) (entry : Z * string)
  : list string :=
  if nonzero (Z.land byte0 (fst entry)) then acc ++ [snd entry] else acc.

(** The body of the [for i in range(2, 8)] loop. *)
Definition key_step (report : list Z) (acc : list string) (i : nat)
  : list string :=
  if nonzero (byte_at report i) then acc ++ [key_name (byte_at report i)] else acc.

Definition decode_keyboard_report (report : list Z) : gmap string pyval :=
  if negb (Nat.eqb (length report) 8) then ∅
  else
    let modifiers := fold_left (modifier_step (byte_at report 0)) modifier_names [] in
    let keys := fold_left (key_step report) (seq 2 6) [] in
    <["raw" := PyStr (bytes_hex report)]>
      (<["keys" := PyList keys]>
         (<["modifiers" := PyList modifiers]> ∅)).

(** *** The decoder as the design document words it *)

(** The modifier carried by each bit position of byte 0. *)
Definition bit_names : list string :=
  [ "LEFT_CTRL"; "LEFT_SHIFT"; "LEFT_ALT"; "LEFT_GUI";
    "RIGHT_CTRL"; "RIGHT_SHIFT"; "RIGHT_ALT"; "RIGHT_GUI" ].

Definition bit_name (k : nat) : string := nth k bit_names EmptyString.

(** The names of the bits set in byte 0, lowest bit first. *)
Definition spec_modifiers (byte0 : Z) : list string :=
  map bit_name (List.filter (λ k, Z.testbit byte0 (Z.of_nat k)) (seq 0 8)).

(** Bytes 2 to 7 of a report. *)
Definition key_slots (report : list Z) : list Z := firstn 6 (skipn 2 report).

(** One entry per non-zero key slot, in slot order. *)
Definition spec_keys (report : list Z) : list string :=
  map key_name (List.filter nonzero (key_slots report)).

(** ** Register traffic *)

(** What the script does to the outside world, in program order. *)
Inductive bus_op : Type :=
| BusWrite (reg value : Z)      (* vendor request 0x01, host to device *)
| BusRead (reg : Z)             (* vendor request 0x02, device to host *)
| Delay (ms : Z).               (* [time.sleep] *)

(** The device end of the control transfers.  An answer may depend on
    everything that happened before: [wr_ok log reg v] tells whether the
    write transfer completes ([False] is a [USBError]), [rd log reg] is
    the byte a read transfer returns ([None] is a [USBError]). *)
Record device : Type := Device {
  wr_ok : list bus_op → Z → Z → bool;
  rd : list bus_op → Z → option Z
}.

(** Computations over the log of bus operations. *)
Definition io (A : Type) : Type := list bus_op → A * list bus_op.

#[global] Instance io_ret : MRet io := λ A x log, (x, log).
#[global] Instance io_bind : MBind io :=
  λ A B f m log, let '(a, log') := m log in f a log'.

Definition result {A} (m : io A) (log : list bus_op) : A := fst (m log).
Definition trace {A} (m : io A) (log : list bus_op) : list bus_op := snd (m log).

(** [time.sleep(ms / 1000)]. *)
Definition sleep (ms : Z) : io unit := λ log, (tt, log ++ [Delay ms]).

(** ** The controller ([CynthionUSBHost]) *)

Definition REG_HOST_MODE_ENABLE : Z := 0x00.
Definition REG_ENUM_START : Z := 0x01.
Definition REG_ENUM_DONE : Z := 0x02.
Definition REG_ENUM_ERROR : Z := 0x03.
Definition REG_ENUM_ERROR_CODE : Z := 0x04.
Definition REG_VENDOR_ID_LO : Z := 0x10.
Definition REG_VENDOR_ID_HI : Z := 0x11.
Definition REG_PRODUCT_ID_LO : Z := 0x12.
Definition REG_PRODUCT_ID_HI : Z := 0x13.
Definition REG_KBD_ACTIVE : Z := 0x20.
Definition REG_KBD_REPORT_BASE : Z := 0x30.
Definition REG_MOUSE_ACTIVE : Z := 0x40.
Definition REG_MOUSE_REPORT_BASE : Z := 0x50.
Definition REG_MOUSE_BUTTONS : Z := 0x50.
Definition REG_MOUSE_DELTA_X : Z := 0x51.
Definition REG_MOUSE_DELTA_Y : Z := 0x52.
Definition REG_MOUSE_WHEEL : Z := 0x53.

(** The [status] dictionary of [check_enumeration_status]: its seven keys
    are fixed, so it is a record. *)
Record status : Type := Status {
  st_done : bool;
  st_error : bool;
  st_error_code : Z;
  st_vendor_id : Z;
  st_product_id : Z;
  st_keyboard_active : bool;
  st_mouse_active : bool
}.

(** The dictionary [read_mouse_report] returns. *)
Record mouse_report : Type := MouseReport {
  buttons : Z;
  delta_x : Z;
  delta_y : Z;
  wheel : Z;
  left_button : bool;
  right_button : bool;
  middle_button : bool
}.

(** [(hi << 8) | lo]. *)
Definition word16 (hi lo : Z) : Z := Z.lor (Z.shiftl hi 8) lo.

(** [raw if raw < 128 else raw - 256]. *)
Definition to_signed (raw : Z) : Z := if raw <? 128 then raw else raw - 256.

Section Controller.

Variable dev : device.

Definition write_register (reg_addr value : Z) : io bool :=
  λ log, (wr_ok dev log reg_addr value, log ++ [BusWrite reg_addr value]).

Definition read_register (reg_addr : Z) : io (option Z) :=
  λ log, (rd dev log reg_addr, log ++ [BusRead reg_addr]).

Definition enable_host_mode : io bool :=
  write_register REG_HOST_MODE_ENABLE 1.

Definition disable_host_mode : io bool :=
  write_register REG_HOST_MODE_ENABLE 0.

Definition start_enumeration : io bool :=
  ok ← write_register REG_ENUM_START 1;
  if negb ok then mret false
  else
    _ ← sleep 10;
    write_register REG_ENUM_START 0.

Definition check_enumeration_status : io status :=
  done ← read_register REG_ENUM_DONE;
  let s_done := match done with Some d => nonzero d | None => false end in
  error ← read_register REG_ENUM_ERROR;
  let s_error := match error with Some e => nonzero e | None => false end in
  error_code ← read_register REG_ENUM_ERROR_CODE;
  let s_error_code := match error_code with Some c => c | None => 0 end in
  ids ←
    (if s_done && negb s_error then
       vid_lo ← read_register REG_VENDOR_ID_LO;
       vid_hi ← read_register REG_VENDOR_ID_HI;
       pid_lo ← read_register REG_PRODUCT_ID_LO;
       pid_hi ← read_register REG_PRODUCT_ID_HI;
       match vid_lo, vid_hi, pid_lo, pid_hi with
       | Some vl, Some vh, Some pl, Some ph =>
           mret (word16 vh vl, word16 ph pl)
       | _, _, _, _ => mret (0, 0)
       end
     else mret (0, 0));
  kbd_active ← read_register REG_KBD_ACTIVE;
  let s_kbd := match kbd_active with Some k => nonzero k | None => false end in
  mouse_active ← read_register REG_MOUSE_ACTIVE;
  let s_mouse := match mouse_active with Some m => nonzero m | None => false end in
  mret (Status s_done s_error s_error_code (fst ids) (snd ids) s_kbd s_mouse).

(** The [for i in range(8)] loop of [read_keyboard_report]; [report] is
    the list built so far. *)
Fixpoint read_keyboard_bytes (indices : list Z) (report : list Z)
  : io (option (list Z)) :=
  match indices with
  | [] => mret (Some report)
  | i :: rest =>
      value ← read_register (REG_KBD_REPORT_BASE + i);
      match value with
      | None => mret None
      | Some v => read_keyboard_bytes rest (report ++ [v])
      end
  end.

Definition read_keyboard_report : io (option (list Z)) :=
  read_keyboard_bytes [0; 1; 2; 3; 4; 5; 6; 7] [].

Definition read_mouse_report : io (option mouse_report) :=
  b ← read_register REG_MOUSE_BUTTONS;
  delta_x_raw ← read_register REG_MOUSE_DELTA_X;
  delta_y_raw ← read_register REG_MOUSE_DELTA_Y;
  wheel_raw ← read_register REG_MOUSE_WHEEL;
  match b, delta_x_raw, delta_y_raw, wheel_raw with
  | Some b, Some xr, Some yr, Some wr =>
      mret (Some (MouseReport b (to_signed xr) (to_signed yr) (to_signed wr)
                    (nonzero (Z.land b 0x01))
                    (nonzero (Z.land b 0x02))
                    (nonzero (Z.land b 0x04))))
  | _, _, _, _ => mret None
  end.

(** [print_status] only prints what [check_enumeration_status] returns. *)
Definition print_status : io unit :=
  _ ← check_enumeration_status; mret tt.

(** The monitors poll until the duration elapses or the user interrupts
    them; [polls] is the number of iterations that happen before that.
    Each iteration reads one report and sleeps 10 ms, whether or not
    the read succeeded; what it prints does not reach the device. *)
Fixpoint monitor_keyboard (polls : nat) : io unit :=
  match polls with
  | O => mret tt
  | S polls' =>
      _ ← read_keyboard_report;
      _ ← sleep 10;
      monitor_keyboard polls'
  end.

Fixpoint monitor_mouse (polls : nat) : io unit :=
  match polls with
  | O => mret tt
  | S polls' =>
      _ ← read_mouse_report;
      _ ← sleep 10;
      monitor_mouse polls'
  end.

(** The [for _ in range(50)] loop of [main] that waits for the end of
    the enumeration; [true] when it left through a [break]. *)
Fixpoint wait_enumeration (rounds : nat) : io bool :=
  match rounds with
  | O => mret false
  | S rounds' =>
      _ ← sleep 100;
      st ← check_enumeration_status;
      if st_done st then mret true
      else if st_error st then mret true
      else wait_enumeration rounds'
  end.

(** The parsed command line. *)
Record args : Type := Args {
  arg_enable : bool;
  arg_disable : bool;
  arg_enumerate : bool;
  arg_status : bool;
  arg_monitor : bool
}.

Definition when (c : bool) (m : io unit) : io unit :=
  if c then m else mret tt.

(** [main] once the controller is connected. *)
Definition main (a : args) (polls : nat) : io unit :=
  _ ← when (arg_enable a) (_ ← enable_host_mode; sleep 100);
  _ ← when (arg_disable a) (_ ← disable_host_mode; sleep 100);
  _ ← when (arg_enumerate a)
        (_ ← start_enumeration; _ ← wait_enumeration 50; mret tt);
  _ ← when (arg_status a) print_status;
  when (arg_monitor a)
    (st ← check_enumeration_status;
     if st_keyboard_active st then monitor_keyboard polls
     else if st_mouse_active st then monitor_mouse polls
     else mret tt).

End Controller.

(** ** The descriptor tool ([test_descriptor.py]) *)

Module DescriptorTester.

(** [','.join(f'{b:02x}' for b in descriptor_bytes)]. *)
Definition hex_str (descriptor_bytes : list Z) : string :=
  PyFormat.join "," (map PyFormat.format_02x descriptor_bytes).

(** The command line [add_descriptor] builds and sends. *)
Definition add_descriptor_cmd (device_addr interface : Z)
    (descriptor_bytes : list Z) : string :=
  "nozen.descriptor.add(" +:+ PyFormat.str device_addr +:+ "," +:+
  PyFormat.str interface +:+ "){" +:+ hex_str descriptor_bytes +:+ "}".

(** The first bytes of [MOUSE_DESCRIPTOR]. *)
Definition MOUSE_DESCRIPTOR_head : list Z := [0x05; 0x01; 0x09; 0x02].

End DescriptorTester.

(** *** The payload as the design document words it *)

(** Lowercase hexadecimal digits. *)
Definition lower_hex_digits : string := "0123456789abcdef".

Definition spec_hex_digit (d : Z) : ascii :=
  default "?"%char (String.get (Z.to_nat d) lower_hex_digits).

(** A byte as two lowercase hexadecimal digits, high nibble first. *)
Definition spec_two_digit_hex (b : Z) : string :=
  String (spec_hex_digit (b / 16)) (String (spec_hex_digit (b mod 16)) EmptyString).

(** Two-digit groups separated by commas. *)
Definition spec_payload (descriptor_bytes : list Z) : string :=
  PyFormat.join "," (map spec_two_digit_hex descriptor_bytes).

(** ** The injection tool ([test_injection.py]) *)

Module Injection.

Definition chr (code : nat) : string := String (ascii_of_nat code) EmptyString.

(** The literal of [SCANCODES], in source order; the last two keys are
    the newline and tab characters. *)
Definition SCANCODES_items : list (string * Z) :=
  [ ("A", 0x04); ("B", 0x05); ("C", 0x06); ("D", 0x07); ("E", 0x08); ("F", 0x09);
    ("G", 0x0A); ("H", 0x0B); ("I", 0x0C); ("J", 0x0D); ("K", 0x0E); ("L", 0x0F);
    ("M", 0x10); ("N", 0x11); ("O", 0x12); ("P", 0x13); ("Q", 0x14); ("R", 0x15);
    ("S", 0x16); ("T", 0x17); ("U", 0x18); ("V", 0x19); ("W", 0x1A); ("X", 0x1B);
    ("Y", 0x1C); ("Z", 0x1D);
    ("1", 0x1E); ("2", 0x1F); ("3", 0x20); ("4", 0x21); ("5", 0x22);
    ("6", 0x23); ("7", 0x24); ("8", 0x25); ("9", 0x26); ("0", 0x27);
    (" ", 0x2C); (chr 10, 0x28); (chr 9, 0x2B) ].

Definition SCANCODES : gmap string Z := list_to_map SCANCODES_items.

Definition MOD_LSHIFT : Z := 0x02.
Definition MOD_LCTRL : Z := 0x01.
Definition MOD_LALT : Z := 0x04.

(** The [i]-th capital letter, [chr(ord('A') + i)]. *)
Definition letter (i : nat) : string := chr (65 + i).

End Injection.

(** ** The unit tests that fix constants *)

(** [TestModifierKeys] of [test_descriptor_unit.py]. *)
Module TestModifierKeys.

Definition MOD_LSHIFT : Z := 0x02.
Definition MOD_LCTRL : Z := 0x01.
Definition MOD_LALT : Z := 0x04.
Definition MOD_LGUI : Z := 0x08.
Definition MOD_RSHIFT : Z := 0x20.
Definition MOD_RCTRL : Z := 0x10.
Definition MOD_RALT : Z := 0x40.
Definition MOD_RGUI : Z := 0x80.

(** The list both tests iterate over. *)
Definition modifiers : list Z :=
  [ MOD_LCTRL; MOD_LSHIFT; MOD_LALT; MOD_LGUI;
    MOD_RCTRL; MOD_RSHIFT; MOD_RALT; MOD_RGUI ].

End TestModifierKeys.

(** [TestPatternValidation.test_max_pattern_steps] of
    [test_injection_unit.py]. *)
Module TestPatternValidation.

Definition MAX_STEPS : Z := 64.

(** [[1, 2, 3] * 21]. *)
Definition max_pattern : list Z := concat (replicate 21 [1; 2; 3]).

Definition len (pattern : list Z) : Z := Z.of_nat (length pattern).

(** The two assertions of the test, [assertLessEqual(len(max_pattern),
    MAX_STEPS)] and [assertEqual(len(max_pattern) % 3, 0)]. *)
Definition test_max_pattern_steps : bool :=
  (len max_pattern <=? MAX_STEPS) && (len max_pattern mod 3 =? 0).

End TestPatternValidation.

(** ** The device side of [recoil.add]

    The host tools only build and send the command; the check of the
    payload is done by the firmware, which is not part of these sources.
    It is taken from the design document. *)

Module RecoilDevice.

(** Modelled from the spec: the raw-integer cap of a pattern, missing
    with the firmware; "total triplet count ≤ 21 (63 raw integers,
    MAX_STEPS=63)". *)
Definition SPEC_MAX_STEPS : Z := 63.

(** Modelled from the spec: the check of one payload value, missing with
    the firmware; "delay (every 3rd value) must be > 0; x/y in i16
    range".  [i] is the position of the value in the payload. *)
Definition value_accepted (i : nat) (v : Z) : bool :=
  if (i mod 3 =? 2)%nat then 0 <? v
  else (-32768 <=? v) && (v <=? 32767).

(** Modelled from the spec: the check of every value of a payload whose
    first value is at position [i]. *)
Fixpoint values_accepted (i : nat) (payload : list Z) : bool :=
  match payload with
  | [] => true
  | v :: rest => value_accepted i v && values_accepted (S i) rest
  end.

(** Modelled from the spec: the payload validation of the device's
    [recoil.add], missing with the firmware; "payload: multiple of 3
    ints, ≤63 ints", with the value checks above, a payload that fails
    being "rejected outright".  [cap] is the raw-integer cap. *)
Definition payload_accepted (cap : Z) (payload : list Z) : bool :=
  (Z.of_nat (length payload) mod 3 =? 0)
  && (Z.of_nat (length payload) <=? cap)
  && values_accepted 0 payload.

End RecoilDevice.

(** ** Statements about register traffic *)

(** The flag a status read leaves behind: the default [False] stays when
    the transfer fails. *)
Definition flag_of (read : option Z) : bool :=
  match read with Some v => nonzero v | None => false end.

(** The statement of the design document, for one run: the identity
    fields are zero unless the enum-done register reads non-zero and the
    enum-error register reads zero. *)
Definition ids_only_when_done_and_error_reads_zero
    (dev : device) (log : list bus_op) : Prop :=
  let st := result (check_enumeration_status dev) log in
  (st_vendor_id st = 0 ∧ st_product_id st = 0)
  ∨ ((∃ d, rd dev log 0x02 = Some d ∧ d ≠ 0)
     ∧ rd dev (log ++ [BusRead 0x02]) 0x03 = Some 0).

(** A bus operation respects the write discipline when it is not a write,
    or writes host-mode enable or enum-start. *)
Definition host_write_target (op : bus_op) : Prop :=
  match op with
  | BusWrite reg _ => reg = REG_HOST_MODE_ENABLE ∨ reg = REG_ENUM_START
  | _ => True
  end.

(** A computation only extends the log, and only with such operations. *)
Definition writes_confined {A} (m : io A) : Prop :=
  ∀ log, ∃ ops, trace m log = log ++ ops ∧ Forall host_write_target ops.

(** ** Sample devices *)

(** A device whose first write fails, and one that accepts every write. *)
Definition stalled_device : device := Device (λ _ _ _, false) (λ _ _, None).
Definition zero_device : device := Device (λ _ _ _, true) (λ _ _, Some 0).

(** A device whose mouse registers hold right button down, [move(10,-5)]
    and one wheel notch back. *)
Definition mouse_device : device :=
  Device (λ _ _ _, true)
         (λ _ reg, Some (if reg =? 0x50 then 0x02
                         else if reg =? 0x51 then 10
                         else if reg =? 0x52 then 251
                         else if reg =? 0x53 then 255
                         else 0)).

(** A device that has enumerated 1d50:615b without error. *)
Definition enumerated_device : device :=
  Device (λ _ _ _, true)
         (λ _ reg, Some (if reg =? 0x02 then 1
                         else if reg =? 0x10 then 0x50
                         else if reg =? 0x11 then 0x1d
                         else if reg =? 0x12 then 0x5b
                         else if reg =? 0x13 then 0x61
                         else 0)).

(** A device that has enumerated 1d50:615b and whose enum-error register
    cannot be read. *)
Definition error_unreadable_device : device :=
  Device (λ _ _ _, true)
         (λ _ reg, if reg =? 0x03 then None
                   else Some (if reg =? 0x02 then 1
                              else if reg =? 0x10 then 0x50
                              else if reg =? 0x11 then 0x1d
                              else if reg =? 0x12 then 0x5b
                              else if reg =? 0x13 then 0x61
                              else 0)).

(** ** Replaying a device *)

(** The answers a device gives when [regs] are read one after the other,
    starting from [log]. *)
Fixpoint answers (dev : device) (log : list bus_op) (regs : list Z)
  : list (option Z) :=
  match regs with
  | [] => []
  | reg :: rest => rd dev log reg :: answers dev (log ++ [BusRead reg]) rest
  end.

(** The log entries of reading [regs] in order. *)
Definition reads (regs : list Z) : list bus_op := map BusRead regs.

(** The eight registers of the keyboard report, 0x30 to 0x37. *)
Definition kbd_regs : list Z :=
  map (λ i, REG_KBD_REPORT_BASE + i) [0; 1; 2; 3; 4; 5; 6; 7].

(** The four registers of the mouse report, 0x50 to 0x53. *)
Definition mouse_regs : list Z :=
  [REG_MOUSE_BUTTONS; REG_MOUSE_DELTA_X; REG_MOUSE_DELTA_Y; REG_MOUSE_WHEEL].

(** The status, identity and activity registers. *)
Definition status_regs : list Z :=
  [REG_ENUM_DONE; REG_ENUM_ERROR; REG_ENUM_ERROR_CODE].
Definition identity_regs : list Z :=
  [REG_VENDOR_ID_LO; REG_VENDOR_ID_HI; REG_PRODUCT_ID_LO; REG_PRODUCT_ID_HI].
Definition activity_regs : list Z := [REG_KBD_ACTIVE; REG_MOUSE_ACTIVE].

(** The values in front of the first failed answer, and whether every
    answer was a value. *)
Fixpoint values_before_failure (ans : list (option Z)) : list Z :=
  match ans with
  | Some v :: rest => v :: values_before_failure rest
  | _ => []
  end.

Definition all_answered (ans : list (option Z)) : bool :=
  forallb (λ a, match a with Some _ => true | None => false end) ans.

(** Time slept, in milliseconds, and the number of transfers in a log. *)
Definition total_delay (ops : list bus_op) : Z :=
  fold_right (λ op acc, match op with Delay ms => ms + acc | _ => acc end) 0 ops.

Definition is_read (op : bus_op) : bool :=
  match op with BusRead _ => true | _ => false end.

Definition is_write (op : bus_op) : bool :=
  match op with BusWrite _ _ => true | _ => false end.

(** One round of the wait loop as it shows in the log: the 100 ms sleep,
    then the reads of the status check; [check] is the status the check
    returned with the reads it made. *)
Definition round_ops (check : status * list bus_op) : list bus_op :=
  Delay 100 :: snd check.

Definition rounds_ops (checks : list (status * list bus_op)) : list bus_op :=
  concat (map round_ops checks).

(** A computation only extends the log, and only with operations that
    satisfy [P]. *)
Definition extends_with (P : bus_op → Prop) {A} (m : io A) : Prop :=
  ∀ log, ∃ ops, trace m log = log ++ ops ∧ Forall P ops.

(** A device all of whose registers hold bytes. *)
Definition byte_device (dev : device) : Prop :=
  ∀ log reg v, rd dev log reg = Some v → 0 ≤ v ≤ 255.

(** The value of a lowercase hexadecimal digit character. *)
Definition hex_digit_value (c : ascii) : Z :=
  let n := Z.of_nat (nat_of_ascii c) in
  if n <? 58 then n - 48 else n - 87.

(** A keyboard whose fourth report register cannot be read. *)
Definition kbd_gap_device : device :=
  Device (λ _ _ _, true) (λ _ reg, if reg =? 0x33 then None else Some 0).

(** Readers used to show that the hexadecimal renderings lose nothing:
    two digits per byte, without separator and with commas. *)
Fixpoint parse_hex_pairs (s : string) : list Z :=
  match s with
  | String c1 (String c2 rest) =>
      (16 * hex_digit_value c1 + hex_digit_value c2) :: parse_hex_pairs rest
  | _ => []
  end.

Fixpoint parse_hex_groups (s : string) : list Z :=
  match s with
  | String c1 (String c2 rest) =>
      (16 * hex_digit_value c1 + hex_digit_value c2)
      :: match rest with
         | String _ rest' => parse_hex_groups rest'
         | EmptyString => []
         end
  | _ => []
  end.

(** The byte values, 0 to 255. *)
Definition all_bytes : list Z := map Z.of_nat (seq 0 256).

(** ** The injector ([CynthionInjector] of [test_injection.py]) *)

Module CynthionInjector.

(** What the injector does to its serial port, in program order. *)
Inductive ser_op : Type :=
| SerWrite (data : string)      (* [ser.write(data)] *)
| SerWaiting                    (* [ser.in_waiting] *)
| SerReadline                   (* [ser.readline()] *)
| SerSleep (ms : Z).            (* [time.sleep] *)

(** The far end of the serial line.  [tx_ok] tells whether a write
    completes ([False] is an exception of the port), [waiting] is the
    value of [in_waiting] and [incoming] the bytes [readline] returns. *)
Record port : Type := Port {
  tx_ok : list ser_op → string → bool;
  waiting : list ser_op → Z;
  incoming : list ser_op → string
}.

(** The position the injector keeps for itself. *)
Record injector : Type := Injector { mouse_x : Z; mouse_y : Z }.

(** A method returns or lets an exception escape. *)
Inductive outcome (A : Type) : Type :=
| Returned (a : A)
| Raised.
Arguments Returned {A} a.
Arguments Raised {A}.

(** Methods thread the injector and the log of the port. *)
Definition act (A : Type) : Type :=
  injector → list ser_op → outcome A * injector * list ser_op.

#[global] Instance act_ret : MRet act := λ A x st log, (Returned x, st, log).
#[global] Instance act_bind : MBind act :=
  λ A B f m st log,
    match m st log with
    | (Returned a, st', log') => f a st' log'
    | (Raised, st', log') => (Raised, st', log')
    end.

Definition outcome_of {A} (r : outcome A * injector * list ser_op) : outcome A :=
  fst (fst r).
Definition injector_of {A} (r : outcome A * injector * list ser_op) : injector :=
  snd (fst r).
Definition log_of {A} (r : outcome A * injector * list ser_op) : list ser_op :=
  snd r.

(** The newline character and the one-character string of it. *)
Definition newline : ascii := ascii_of_nat 10.
Definition nl : string := String newline EmptyString.

(** [s.encode('ascii')]: an error for a character above 127. *)
Definition is_ascii (c : ascii) : bool := (nat_of_ascii c <? 128)%nat.

Fixpoint all_ascii (s : string) : bool :=
  match s with
  | EmptyString => true
  | String c s' => is_ascii c && all_ascii s'
  end.

(** [data.decode('ascii', errors='ignore')]. *)
Fixpoint decode_ignore (data : string) : string :=
  match data with
  | EmptyString => EmptyString
  | String c rest =>
      if is_ascii c then String c (decode_ignore rest) else decode_ignore rest
  end.

(** The characters [str.strip()] removes: tab to carriage return, the
    four separators 0x1c to 0x1f, and space. *)
Definition is_space (c : ascii) : bool :=
  let n := nat_of_ascii c in
  ((9 <=? n) && (n <=? 13) || (28 <=? n) && (n <=? 32))%nat.

Fixpoint lstrip (s : string) : string :=
  match s with
  | EmptyString => EmptyString
  | String c rest => if is_space c then lstrip rest else s
  end.

(** Removal of trailing white space: a character is dropped when it is
    white space and nothing but white space follows it. *)
Fixpoint rstrip (s : string) : string :=
  match s with
  | EmptyString => EmptyString
  | String c rest =>
      match rstrip rest with
      | EmptyString => if is_space c then EmptyString else String c EmptyString
      | kept => String c kept
      end
  end.

Definition strip (s : string) : string := rstrip (lstrip s).

Section Methods.

Variable p : port.

Definition raise {A} : act A := λ st log, (Raised, st, log).

Definition sleep (ms : Z) : act unit :=
  λ st log, (Returned tt, st, log ++ [SerSleep ms]).

(** [self.ser.write(data)]. *)
Definition ser_write (data : string) : act unit :=
  λ st log, (if tx_ok p log data then Returned tt else Raised,
             st, log ++ [SerWrite data]).

(** [self.ser.write(cmd.encode('ascii'))]. *)
Definition write_cmd (cmd : string) : act unit :=
  if all_ascii cmd then ser_write cmd else raise.

Definition in_waiting : act Z :=
  λ st log, (Returned (waiting p log), st, log ++ [SerWaiting]).

(** [self.ser.readline().decode('ascii', errors='ignore').strip()]. *)
Definition read_response : act string :=
  λ st log, (Returned (strip (decode_ignore (incoming p log))), st,
             log ++ [SerReadline]).

Definition set_position (x y : Z) : act unit :=
  λ st log, (Returned tt, Injector x y, log).

Definition get_position : act (Z * Z) :=
  λ st log, (Returned (mouse_x st, mouse_y st), st, log).

(** [cmd = f"nozen.move({x},{y})\n"]. *)
Definition move_cmd (x y : Z) : string :=
  "nozen.move(" +:+ PyFormat.str x +:+ "," +:+ PyFormat.str y +:+ ")" +:+ nl.

Definition move (x y : Z) : act unit :=
  _ ← write_cmd (move_cmd x y);
  pos ← get_position;
  _ ← set_position (fst pos + x) (snd pos + y);
  sleep 10.

(** [cmd = f"nozen.moveto({x},{y})\n"]. *)
Definition moveto_cmd (x y : Z) : string :=
  "nozen.moveto(" +:+ PyFormat.str x +:+ "," +:+ PyFormat.str y +:+ ")" +:+ nl.

Definition moveto (x y : Z) : act unit :=
  _ ← write_cmd (moveto_cmd x y);
  _ ← set_position x y;
  sleep 10.

(** [if self.ser.in_waiting: response = ...readline()...]. *)
Definition response_if_waiting : act (option string) :=
  n ← in_waiting;
  if nonzero n then (r ← read_response; mret (Some r)) else mret None.

Definition getpos_cmd : string := "nozen.getpos()" +:+ nl.

Definition get_pos : act (option string) :=
  _ ← write_cmd getpos_cmd;
  _ ← sleep 50;
  response_if_waiting.

(** The twelve press and release methods write a fixed line. *)
Definition button_line (line : string) : act unit :=
  _ ← ser_write (line +:+ nl); sleep 10.

Definition left_press : act unit := button_line "nozen.left(1)".
Definition left_release : act unit := button_line "nozen.left(0)".
Definition right_press : act unit := button_line "nozen.right(1)".
Definition right_release : act unit := button_line "nozen.right(0)".
Definition middle_press : act unit := button_line "nozen.middle(1)".
Definition middle_release : act unit := button_line "nozen.middle(0)".
Definition side1_press : act unit := button_line "nozen.side1(1)".
Definition side1_release : act unit := button_line "nozen.side1(0)".
Definition side2_press : act unit := button_line "nozen.side2(1)".
Definition side2_release : act unit := button_line "nozen.side2(0)".

Definition wheel_cmd (movement : Z) : string :=
  "nozen.wheel(" +:+ PyFormat.str movement +:+ ")" +:+ nl.

Definition wheel (movement : Z) : act unit :=
  _ ← write_cmd (wheel_cmd movement);
  sleep 10.

Definition left_click : act unit :=
  _ ← left_press; _ ← sleep 50; left_release.

Definition right_click : act unit :=
  _ ← right_press; _ ← sleep 50; right_release.

Definition middle_click : act unit :=
  _ ← middle_press; _ ← sleep 50; middle_release.

(** [','.join(map(str, pattern))]. *)
Definition pattern_str (pattern : list Z) : string :=
  PyFormat.join "," (map PyFormat.str pattern).

Definition recoil_add_cmd (name : string) (pattern : list Z) : string :=
  "nozen.recoil.add(" +:+ name +:+ "){" +:+ pattern_str pattern +:+ "}" +:+ nl.

Definition recoil_add (name : string) (pattern : list Z) : act unit :=
  _ ← write_cmd (recoil_add_cmd name pattern);
  _ ← sleep 50;
  _ ← response_if_waiting; mret tt.

Definition recoil_delete_cmd (name : string) : string :=
  "nozen.recoil.delete(" +:+ name +:+ ")" +:+ nl.

Definition recoil_delete (name : string) : act unit :=
  _ ← write_cmd (recoil_delete_cmd name);
  _ ← sleep 50;
  _ ← response_if_waiting; mret tt.

Definition recoil_get_cmd (name : string) : string :=
  "nozen.recoil.get(" +:+ name +:+ ")" +:+ nl.

Definition recoil_get (name : string) : act unit :=
  _ ← write_cmd (recoil_get_cmd name);
  _ ← sleep 50;
  _ ← response_if_waiting; mret tt.

Definition print_cmd (message : string) : string :=
  "nozen.print(" +:+ message +:+ ")" +:+ nl.

Definition print_message (message : string) : act unit :=
  _ ← write_cmd (print_cmd message);
  _ ← sleep 50;
  _ ← response_if_waiting; mret tt.

Definition restart : act unit :=
  _ ← write_cmd ("nozen.restart" +:+ nl);
  _ ← sleep 500;
  _ ← response_if_waiting; mret tt.

(** [while self.ser.in_waiting: ...readline()...]; the port decides when
    the loop ends, [rounds] bounds the lines it may deliver. *)
Fixpoint drain (rounds : nat) : act unit :=
  match rounds with
  | O => mret tt
  | S rounds' =>
      n ← in_waiting;
      if nonzero n then (_ ← read_response; drain rounds') else mret tt
  end.

Definition recoil_list (rounds : nat) : act unit :=
  _ ← write_cmd ("nozen.recoil.list" +:+ nl);
  _ ← sleep 50;
  drain rounds.

Definition recoil_names (rounds : nat) : act unit :=
  _ ← write_cmd ("nozen.recoil.names" +:+ nl);
  _ ← sleep 50;
  drain rounds.

(** A run of [move] calls, one after the other. *)
Fixpoint moves (steps : list (Z * Z)) : act unit :=
  match steps with
  | [] => mret tt
  | (dx, dy) :: rest => _ ← move dx dy; moves rest
  end.

End Methods.

(** A line of the command protocol as the injector writes it: ASCII,
    starting with the [nozen.] prefix, ending with a newline. *)
Definition nozen_line (data : string) : Prop :=
  all_ascii data = true
  ∧ String.prefix "nozen." data = true
  ∧ ∃ body, data = body +:+ nl.

(** Every write a method attempts is such a line. *)
Definition writes_nozen_lines {A} (m : act A) : Prop :=
  ∀ st log data,
    SerWrite data ∈ log_of (m st log) →
    SerWrite data ∈ log ∨ nozen_line data.

(** What a method does with the command [cmd] it builds from the text
    argument [text]: with a character above 127 in the text the encoding
    fails, the exception escapes and the port is not touched at all;
    otherwise the first thing it does is to write the whole command. *)
Definition sends_or_raises (m : act unit) (text cmd : string) : Prop :=
  ∀ st log,
    (all_ascii text = false → m st log = (Raised, st, log))
    ∧ (all_ascii text = true →
       ∃ rest, log_of (m st log) = log ++ SerWrite cmd :: rest).

(** A click: the press line, then 50 ms later the release line.  The
    release is not attempted when the press was refused, the method
    returns only when both were accepted, and the tracked position is
    untouched. *)
Definition click_protocol (p : port) (click : act unit) (press release : string)
  : Prop :=
  ∀ st log,
    let pressed := log ++ [SerWrite press; SerSleep 10; SerSleep 50] in
    click st log
    = if tx_ok p log press then
        if tx_ok p pressed release
        then (Returned tt, st, pressed ++ [SerWrite release; SerSleep 10])
        else (Raised, st, pressed ++ [SerWrite release])
      else (Raised, st, log ++ [SerWrite press]).

(** A port that accepts every write and never has anything to say, and a
    port that refuses every write. *)
Definition silent_port : port := Port (λ _ _, true) (λ _, 0) (λ _, EmptyString).
Definition broken_port : port := Port (λ _ _, false) (λ _, 0) (λ _, EmptyString).

(** A port that answers the position query. *)
Definition position_port : port :=
  Port (λ _ _, true) (λ _, 17)
       (λ _, "km.pos(100,200)" +:+ String (ascii_of_nat 13) nl).

End CynthionInjector.

(** ** The triplets of a recoil pattern ([test_descriptor_unit.py]) *)

Module TestRecoilPatternFormat.




End TestRecoilPatternFormat.

(** ** Character classes *)

(** Every character of [s] satisfies [f]. *)
Fixpoint chars_all (f : ascii → bool) (s : string) : bool :=
  match s with
  | EmptyString => true
  | String c s' => f c && chars_all f s'
  end.

(** The characters of a decimal numeral: the minus sign and the digits. *)
Definition decimal_char (c : ascii) : bool :=
  let n := nat_of_ascii c in
  ((n =? 45) || (48 <=? n) && (n <=? 57))%nat.

(** The value of a string of decimal digits, and of a signed numeral. *)
Definition decimal_value (s : string) : Z :=
  fold_left (λ acc c, 10 * acc + (Z.of_nat (nat_of_ascii c) - 48))
            (list_ascii_of_string s) 0.

Definition numeral_value (s : string) : Z :=
  match s with
  | String c rest =>
      if Ascii.eqb c "-" then - decimal_value rest else decimal_value s
  | EmptyString => 0
  end.

(** The decimal digits proper. *)
Definition is_digit_char (c : ascii) : bool :=
  let n := nat_of_ascii c in ((48 <=? n) && (n <=? 57))%nat.

Definition not_comma (c : ascii) : bool := negb (Ascii.eqb c ",").

(** A reader for comma-separated numerals, used to show that the pattern
    text loses nothing; [cur] is the field read so far. *)
Fixpoint split_commas (s cur : string) : list string :=
  match s with
  | EmptyString => [cur]
  | String c rest =>
      if Ascii.eqb c "," then cur :: split_commas rest EmptyString
      else split_commas rest (cur +:+ String c EmptyString)
  end.

Definition parse_pattern (s : string) : list Z :=
  map numeral_value (split_commas s EmptyString).

(** * Properties *)

(** ** Generic facts *)

(** A property of bytes can be checked on the 256 values. *)
Lemma byte_cases (P : Z → bool) :
  forallb P (map Z.of_nat (seq 0 256)) = true →
  ∀ b, 0 ≤ b < 256 → P b = true.
Proof.
  intros Hall b Hb.
  rewrite forallb_forall in Hall. apply Hall.
  apply in_map_iff. exists (Z.to_nat b). split; [lia|].
  apply in_seq. lia.
Qed.

(** The mask test of the decoder reads one bit. *)
Lemma land_pow2_testbit (x : Z) (k : Z) :
  0 ≤ k → nonzero (Z.land x (2 ^ k)) = Z.testbit x k.
Proof.
  intros Hk. unfold nonzero.
  destruct (Z.testbit x k) eqn:Hbit.
  - apply negb_true_iff, Z.eqb_neq. intros Hz.
    assert (Hb : Z.testbit (Z.land x (2 ^ k)) k = true).
    { rewrite Z.land_spec, Hbit, Z.pow2_bits_true by lia. reflexivity. }
    rewrite Hz, Z.bits_0 in Hb. discriminate.
  - apply negb_false_iff, Z.eqb_eq. apply Z.bits_inj'. intros n Hn.
    rewrite Z.land_spec, Z.bits_0.
    destruct (Z.eq_dec n k) as [->|Hne].
    + rewrite Hbit. reflexivity.
    + rewrite Z.pow2_bits_false by lia. apply andb_false_r.
Qed.

(** A loop that appends the image of the selected items is a filter
    followed by a map. *)
Lemma fold_append_filter {A B} (keep : A → bool) (f : A → B) (l : list A) (acc : list B) :
  fold_left (λ acc x, if keep x then acc ++ [f x] else acc) l acc
  = acc ++ map f (List.filter keep l).
Proof.
  revert acc. induction l as [|x l IH]; intros acc; simpl.
  - by rewrite app_nil_r.
  - rewrite IH. destruct (keep x); simpl; [|done].
    by rewrite <- app_assoc.
Qed.

(** ** The formatting model on known values *)

Example format_02x_values :
  PyFormat.format_02x 5 = "05" ∧ PyFormat.format_02x 0xff = "ff"
  ∧ PyFormat.format_02x 0x100 = "100" ∧ PyFormat.format_02x (-5) = "-5".
Proof. repeat split. Qed.

Example str_values :
  PyFormat.str 0 = "0" ∧ PyFormat.str 115200 = "115200"
  ∧ PyFormat.str (-37) = "-37".
Proof. repeat split. Qed.

Example decode_ctrl_shift_a :
  decode_keyboard_report [0x03; 0; 0x04; 0; 0; 0; 0; 0]
  = <["raw" := PyStr "0300040000000000"]>
      (<["keys" := PyList ["A"]]>
         (<["modifiers" := PyList ["LEFT_CTRL"; "LEFT_SHIFT"]]> ∅)).
Proof. reflexivity. Qed.

(** ** C10: reports of the wrong length *)

(** C10. For every byte sequence whose length is not exactly 8,
    [decode_keyboard_report] returns the empty dictionary: it has no
    ['modifiers'], ['keys'] or ['raw'] entry (nor any other), and nothing
    is decoded from a partial report. *)
Theorem decode_keyboard_report_wrong_length (report : list Z) :
  length report ≠ 8%nat →
  decode_keyboard_report report = ∅
  ∧ decode_keyboard_report report !! "modifiers" = None
  ∧ decode_keyboard_report report !! "keys" = None
  ∧ decode_keyboard_report report !! "raw" = None.
Proof.
  intros Hlen. unfold decode_keyboard_report.
  destruct (Nat.eqb_spec (length report) 8) as [Heq|_]; [contradiction|].
  simpl. repeat split; apply lookup_empty.
Qed.

Lemma decode_keyboard_report_wrong_length_witness :
  decode_keyboard_report [0x02; 0x00; 0x04] = ∅
  ∧ decode_keyboard_report [0x02; 0x00; 0x04] !! "modifiers" = None
  ∧ decode_keyboard_report [0x02; 0x00; 0x04] !! "keys" = None
  ∧ decode_keyboard_report [0x02; 0x00; 0x04] !! "raw" = None.
Proof.
  apply (decode_keyboard_report_wrong_length [0x02; 0x00; 0x04]).
  simpl. lia.
Defined.

(** ** C3: decoding an 8-byte keyboard report *)

Lemma modifier_names_by_bit :
  modifier_names = map (λ k, (2 ^ Z.of_nat k, bit_name k)) (seq 0 8).
Proof. reflexivity. Qed.

Lemma modifiers_loop (byte0 : Z) :
  fold_left (modifier_step byte0) modifier_names [] = spec_modifiers byte0.
Proof.
  unfold modifier_step.
  rewrite (fold_append_filter (λ e, nonzero (Z.land byte0 (fst e))) snd).
  rewrite app_nil_l, modifier_names_by_bit, filter_map_swap, map_map.
  unfold spec_modifiers.
  rewrite (filter_ext _ (λ k, Z.testbit byte0 (Z.of_nat k))); [reflexivity|].
  intros k. cbn [fst]. apply land_pow2_testbit. lia.
Qed.

Lemma keys_loop (report : list Z) :
  length report = 8%nat →
  fold_left (key_step report) (seq 2 6) [] = spec_keys report.
Proof.
  intros Hlen. unfold key_step.
  rewrite (fold_append_filter (λ i, nonzero (byte_at report i))
             (λ i, key_name (byte_at report i))).
  rewrite app_nil_l. unfold spec_keys.
  assert (Hslots : key_slots report = map (byte_at report) (seq 2 6)).
  { do 9 (destruct report as [|? report]; try discriminate Hlen). reflexivity. }
  rewrite Hslots, filter_map_swap, map_map. reflexivity.
Qed.

(** C3. For every 8-byte keyboard report, [decode_keyboard_report] is a
    function of the report alone (it performs no register access and
    returns fresh values, so the report is unchanged); its ['modifiers']
    list is exactly the names of the bits set in byte 0, and its ['keys']
    list has exactly one entry for each non-zero byte among bytes 2-7, in
    byte order, zero bytes being skipped. *)
Theorem decode_keyboard_report_correct (report : list Z) :
  length report = 8%nat →
  decode_keyboard_report report !! "modifiers"
    = Some (PyList (spec_modifiers (byte_at report 0)))
  ∧ decode_keyboard_report report !! "keys"
    = Some (PyList (spec_keys report))
  ∧ (∀ name, name ∈ spec_modifiers (byte_at report 0) ↔
       ∃ k, (k < 8)%nat ∧ Z.testbit (byte_at report 0) (Z.of_nat k) = true
            ∧ name = bit_name k)
  ∧ length (spec_keys report)
    = length (List.filter nonzero (key_slots report)).
Proof.
  intros Hlen. unfold decode_keyboard_report.
  rewrite Hlen. cbn [Nat.eqb negb].
  rewrite modifiers_loop, keys_loop by exact Hlen.
  split; [|split; [|split]].
  - by rewrite lookup_insert_ne, lookup_insert_ne, lookup_insert_eq.
  - by rewrite lookup_insert_ne, lookup_insert_eq.
  - intros name. unfold spec_modifiers.
    rewrite list_elem_of_In, in_map_iff. split.
    + intros (k & <- & Hk). apply filter_In in Hk as [Hk Hbit].
      apply in_seq in Hk. exists k. repeat split; [lia | done].
    + intros (k & Hk & Hbit & ->). exists k. split; [done|].
      apply filter_In. split; [apply in_seq; lia | done].
  - unfold spec_keys. apply length_map.
Qed.

Lemma decode_keyboard_report_correct_witness :
  decode_keyboard_report [0x03; 0; 0x04; 0; 0x39; 0x50; 0; 0] !! "modifiers"
    = Some (PyList ["LEFT_CTRL"; "LEFT_SHIFT"])
  ∧ decode_keyboard_report [0x03; 0; 0x04; 0; 0x39; 0x50; 0; 0] !! "keys"
    = Some (PyList ["A"; "CAPS_LOCK"; "KEY_50"]).
Proof.
  destruct (decode_keyboard_report_correct [0x03; 0; 0x04; 0; 0x39; 0x50; 0; 0])
    as (Hm & Hk & _); [reflexivity|].
  split; [exact Hm | exact Hk].
Defined.

(** ** C5: the modifier bits *)

(** C5. The eight keyboard modifier bit values are pairwise disjoint
    powers of two: bit [k] of byte 0 (value [2 ^ k]) is, for [k] from 0
    to 7, Left-Ctrl 0x01, Left-Shift 0x02, Left-Alt 0x04, Left-GUI 0x08,
    Right-Ctrl 0x10, Right-Shift 0x20, Right-Alt 0x40, Right-GUI 0x80;
    two distinct modifiers have no bit in common and each has exactly one
    bit set.  The unit test uses the same eight values. *)
Theorem modifier_bits_disjoint_powers_of_two :
  modifier_names
  = [ (0x01, "LEFT_CTRL"); (0x02, "LEFT_SHIFT"); (0x04, "LEFT_ALT");
      (0x08, "LEFT_GUI"); (0x10, "RIGHT_CTRL"); (0x20, "RIGHT_SHIFT");
      (0x40, "RIGHT_ALT"); (0x80, "RIGHT_GUI") ]
  ∧ (∀ k, (k < 8)%nat → modifier_names !! k = Some (2 ^ Z.of_nat k, bit_name k))
  ∧ (∀ i j m1 m2, modifier_names.*1 !! i = Some m1 →
       modifier_names.*1 !! j = Some m2 → i ≠ j → Z.land m1 m2 = 0)
  ∧ (∀ i m, modifier_names.*1 !! i = Some m →
       ∀ b, Z.testbit m b = true ↔ b = Z.of_nat i)
  ∧ TestModifierKeys.modifiers = modifier_names.*1.
Proof.
  assert (Hpow : ∀ i m, modifier_names.*1 !! i = Some m →
                        (i < 8)%nat ∧ m = 2 ^ Z.of_nat i).
  { intros i m Hi. assert (Hlt := lookup_lt_Some _ _ _ Hi).
    change (length (modifier_names.*1)) with 8%nat in Hlt. split; [exact Hlt|].
    do 8 (destruct i as [|i]; [by inversion Hi|]). lia. }
  split; [reflexivity|]. split; [|split; [|split]].
  - intros k Hk. do 8 (destruct k as [|k]; [reflexivity|]). lia.
  - intros i j m1 m2 Hi Hj Hne.
    apply Hpow in Hi as [Hi ->]. apply Hpow in Hj as [Hj ->].
    apply Z.bits_inj'. intros n Hn.
    rewrite Z.land_spec, Z.bits_0, !Z.pow2_bits_eqb by lia.
    destruct (Z.eqb_spec (Z.of_nat i) n), (Z.eqb_spec (Z.of_nat j) n); try done.
    lia.
  - intros i m Hi b. apply Hpow in Hi as [Hi ->].
    destruct (Z.neg_nonneg_cases b) as [Hneg|Hpos].
    + rewrite Z.testbit_neg_r by exact Hneg. split; [discriminate | lia].
    + rewrite Z.pow2_bits_eqb by lia. rewrite Z.eqb_eq. split; congruence.
  - reflexivity.
Qed.

Lemma modifier_bits_disjoint_powers_of_two_witness :
  Z.land 0x02 0x40 = 0 ∧ (Z.testbit 0x40 6 = true ↔ 6 = Z.of_nat 6).
Proof.
  destruct modifier_bits_disjoint_powers_of_two as (_ & _ & Hdisj & Hone & _).
  split.
  - apply (Hdisj 1%nat 6%nat); [reflexivity | reflexivity | lia].
  - apply (Hone 6%nat). reflexivity.
Defined.

(** ** C6: the letter scancodes *)

(** Distinct values in the literal make the dictionary injective. *)
Lemma list_to_map_injective {K V} `{Countable K} (items : list (K * V)) :
  NoDup (items.*2) →
  ∀ k1 k2 v,
    (list_to_map items : gmap K V) !! k1 = Some v →
    (list_to_map items : gmap K V) !! k2 = Some v →
    k1 = k2.
Proof.
  intros Hnd k1 k2 v H1 H2.
  apply elem_of_list_to_map_2 in H1. apply elem_of_list_to_map_2 in H2.
  induction items as [|[k v'] items IH]; [by apply elem_of_nil in H1|].
  apply NoDup_cons in Hnd as [Hnotin Hnd].
  assert (Hin : ∀ k0, (k0, v) ∈ items → v ∈ items.*2).
  { intros k0 Hk0. apply list_elem_of_fmap. by exists (k0, v). }
  apply elem_of_cons in H1 as [H1|H1]; apply elem_of_cons in H2 as [H2|H2].
  - congruence.
  - inversion H1; subst. exfalso. apply Hnotin. eauto.
  - inversion H2; subst. exfalso. apply Hnotin. eauto.
  - by apply IH.
Qed.

(** C6. The scancodes of the letters A to Z are sequential from 0x04:
    the [i]-th letter, for [i] from 0 to 25, has scancode [0x04 + i], so
    A is 0x04 and Z is 0x1D; no two keys of [SCANCODES] share a scancode.
    The decoder's [keycode_names] names the same codes with the same
    letters. *)
Theorem letter_scancodes_sequential :
  (∀ i, (i < 26)%nat →
     Injection.SCANCODES !! Injection.letter i = Some (0x04 + Z.of_nat i))
  ∧ Injection.SCANCODES !! "A" = Some 0x04
  ∧ Injection.SCANCODES !! "Z" = Some 0x1D
  ∧ (∀ k1 k2 code, Injection.SCANCODES !! k1 = Some code →
       Injection.SCANCODES !! k2 = Some code → k1 = k2)
  ∧ (∀ i, (i < 26)%nat →
       keycode_names !! (0x04 + Z.of_nat i) = Some (Injection.letter i)).
Proof.
  split; [|split; [|split; [|split]]].
  - intros i Hi. do 26 (destruct i as [|i]; [vm_compute; reflexivity|]). lia.
  - vm_compute; reflexivity.
  - vm_compute; reflexivity.
  - apply list_to_map_injective.
    apply (bool_decide_unpack _). vm_compute. reflexivity.
  - intros i Hi. do 26 (destruct i as [|i]; [vm_compute; reflexivity|]). lia.
Qed.

Lemma letter_scancodes_sequential_witness :
  Injection.SCANCODES !! "K" = Some 0x0E
  ∧ keycode_names !! 0x0E = Some "K".
Proof.
  destruct letter_scancodes_sequential as (Hseq & _ & _ & _ & Hname).
  split.
  - apply (Hseq 10%nat). lia.
  - apply (Hname 10%nat). lia.
Defined.

(** ** C2: the size limit of a recoil pattern *)

(** The raw-integer cap the test fixes is 64, not 63. *)
Lemma max_steps_is_not_63 : TestPatternValidation.MAX_STEPS ≠ 63.
Proof. discriminate. Qed.

Lemma whole_triplets_cap (n : Z) :
  n mod 3 = 0 → (n <=? 64) = (n <=? 63).
Proof.
  intros Hmod.
  assert (Hdiv : n = 3 * (n / 3)) by (rewrite (Z.div_mod n 3) at 1; lia).
  destruct (Z.leb_spec n 64), (Z.leb_spec n 63); try reflexivity; lia.
Qed.

Lemma payload_accepted_length (cap : Z) (payload : list Z) :
  RecoilDevice.payload_accepted cap payload = true →
  Z.of_nat (length payload) mod 3 = 0 ∧ Z.of_nat (length payload) ≤ cap.
Proof.
  unfold RecoilDevice.payload_accepted.
  intros [[Hmod Hle]%andb_true_iff _]%andb_true_iff.
  split; [by apply Z.eqb_eq | by apply Z.leb_le].
Qed.

(** C2 (amended). A recoil pattern holds at most 21 (dx, dy, delay)
    triplets, that is at most 63 raw integers.  The raw-integer cap
    constant [MAX_STEPS] equals 64 in the code; a payload being a whole
    number of triplets, that is the same limit as the 63 of the design
    document.  So a payload of exactly 21 triplets (63 values) is
    accepted and is at the maximum, nothing can be added to it, and any
    payload of more raw integers than [MAX_STEPS] is over capacity. *)
Theorem pattern_capacity :
  TestPatternValidation.MAX_STEPS = 64
  ∧ TestPatternValidation.len TestPatternValidation.max_pattern = 3 * 21
  ∧ TestPatternValidation.test_max_pattern_steps = true
  ∧ (∀ payload,
       RecoilDevice.payload_accepted TestPatternValidation.MAX_STEPS payload
       = RecoilDevice.payload_accepted RecoilDevice.SPEC_MAX_STEPS payload)
  ∧ (∀ payload,
       RecoilDevice.payload_accepted TestPatternValidation.MAX_STEPS payload = true →
       TestPatternValidation.len payload ≤ 63
       ∧ TestPatternValidation.len payload / 3 ≤ 21)
  ∧ RecoilDevice.payload_accepted TestPatternValidation.MAX_STEPS
      TestPatternValidation.max_pattern = true
  ∧ (∀ payload extra,
       TestPatternValidation.len payload = 63 → extra ≠ [] →
       RecoilDevice.payload_accepted TestPatternValidation.MAX_STEPS
         (payload ++ extra) = false)
  ∧ (∀ payload,
       TestPatternValidation.len payload > TestPatternValidation.MAX_STEPS →
       RecoilDevice.payload_accepted TestPatternValidation.MAX_STEPS payload = false).
Proof.
  assert (Hcap : ∀ payload,
    RecoilDevice.payload_accepted TestPatternValidation.MAX_STEPS payload = true →
    TestPatternValidation.len payload ≤ 63
    ∧ TestPatternValidation.len payload / 3 ≤ 21).
  { intros payload Hok. apply payload_accepted_length in Hok as [Hmod Hle].
    unfold TestPatternValidation.MAX_STEPS in Hle. unfold TestPatternValidation.len.
    assert (Hdiv : Z.of_nat (length payload)
                   = 3 * (Z.of_nat (length payload) / 3))
      by (rewrite (Z.div_mod (Z.of_nat (length payload)) 3) at 1; lia).
    lia. }
  split; [reflexivity|]. split; [reflexivity|]. split; [reflexivity|].
  split; [|split; [exact Hcap|]; split; [by vm_compute|]; split].
  - intros payload. unfold RecoilDevice.payload_accepted,
      TestPatternValidation.MAX_STEPS, RecoilDevice.SPEC_MAX_STEPS.
    destruct (Z.eqb_spec (Z.of_nat (length payload) mod 3) 0) as [Hmod|_];
      [|reflexivity].
    by rewrite (whole_triplets_cap _ Hmod).
  - intros payload extra Hlen Hextra.
    destruct (RecoilDevice.payload_accepted TestPatternValidation.MAX_STEPS
                (payload ++ extra)) eqn:Hok; [|reflexivity].
    apply Hcap in Hok as [Hle _]. exfalso.
    unfold TestPatternValidation.len in *. rewrite length_app in Hle.
    destruct extra; [done|]. simpl in Hle. lia.
  - intros payload Hgt.
    destruct (RecoilDevice.payload_accepted TestPatternValidation.MAX_STEPS payload)
      eqn:Hok; [|reflexivity].
    apply Hcap in Hok as [Hle _].
    unfold TestPatternValidation.MAX_STEPS in Hgt. lia.
Qed.

Lemma pattern_capacity_witness :
  TestPatternValidation.len TestPatternValidation.max_pattern ≤ 63
  ∧ TestPatternValidation.len TestPatternValidation.max_pattern / 3 ≤ 21
  ∧ RecoilDevice.payload_accepted TestPatternValidation.MAX_STEPS
      (TestPatternValidation.max_pattern ++ [1; 2; 3]) = false.
Proof.
  destruct pattern_capacity as (_ & _ & _ & _ & Hcap & Hmax & Hfull & _).
  split; [|split].
  - apply (Hcap TestPatternValidation.max_pattern Hmax).
  - apply (Hcap TestPatternValidation.max_pattern Hmax).
  - apply (Hfull TestPatternValidation.max_pattern [1; 2; 3]);
      [reflexivity | discriminate].
Defined.

(** ** C7: the enumeration start pulse *)

(** C7. [start_enumeration] pulses the enum-start register at address
    0x01: it writes 1 and then 0, in that order.  If the first write
    fails it returns [False] and the clearing write is not performed; it
    returns [True] only when both writes succeed. *)
Theorem start_enumeration_pulse (dev : device) (log : list bus_op) :
  let first := wr_ok dev log 0x01 1 in
  let second := wr_ok dev (log ++ [BusWrite 0x01 1; Delay 10]) 0x01 0 in
  (first = false →
     result (start_enumeration dev) log = false
     ∧ trace (start_enumeration dev) log = log ++ [BusWrite 0x01 1])
  ∧ (first = true →
     result (start_enumeration dev) log = second
     ∧ trace (start_enumeration dev) log
       = log ++ [BusWrite 0x01 1; Delay 10; BusWrite 0x01 0])
  ∧ (result (start_enumeration dev) log = true ↔ first = true ∧ second = true).
Proof.
  unfold result, trace, start_enumeration, write_register, sleep,
    REG_ENUM_START, mbind, io_bind, mret, io_ret.
  cbn zeta.
  destruct (wr_ok dev log 1 1); cbn [negb fst snd];
    rewrite <- ?app_assoc; cbn [app].
  - split; [discriminate|]. split; [done|]. split; [done|]. by intros [_ ?].
  - split; [done|]. split; [discriminate|]. split; [discriminate|]. by intros [? _].
Qed.

Lemma start_enumeration_pulse_witness :
  (result (start_enumeration stalled_device) [] = false
   ∧ trace (start_enumeration stalled_device) [] = [BusWrite 0x01 1])
  ∧ (result (start_enumeration zero_device) [] = true
     ∧ trace (start_enumeration zero_device) []
       = [BusWrite 0x01 1; Delay 10; BusWrite 0x01 0]).
Proof.
  split.
  - apply (start_enumeration_pulse stalled_device []). reflexivity.
  - apply (start_enumeration_pulse zero_device []). reflexivity.
Defined.

(** ** C4: the mouse report *)

Lemma to_signed_range (raw : Z) :
  0 ≤ raw ≤ 255 → -128 ≤ to_signed raw ≤ 127.
Proof. unfold to_signed. destruct (Z.ltb_spec raw 128); lia. Qed.

(** Decoding the two's-complement byte of a signed value gives it back. *)
Lemma to_signed_of_byte (v : Z) :
  -128 ≤ v ≤ 127 → to_signed (v mod 256) = v.
Proof.
  intros Hv. unfold to_signed.
  destruct (Z.neg_nonneg_cases v) as [Hneg|Hpos].
  - assert (Hmod : v mod 256 = v + 256).
    { symmetry. apply (Z.mod_unique v 256 (-1)); lia. }
    rewrite Hmod. destruct (Z.ltb_spec (v + 256) 128); lia.
  - rewrite Z.mod_small by lia. destruct (Z.ltb_spec v 128); lia.
Qed.

(** C4. For raw delta-x, delta-y and wheel register bytes in [0, 255],
    [read_mouse_report] converts each byte [b] to [b] if [b < 128] and to
    [b - 256] otherwise, the two's-complement reading: the decoded
    [delta_x], [delta_y] and [wheel] lie in [-128, 127], and the byte of
    a signed value in that range decodes to that value.  The left, right
    and middle flags are bits 0, 1 and 2 of the buttons register. *)
Theorem read_mouse_report_signed (dev : device) (log : list bus_op) (b x y w : Z) :
  rd dev log 0x50 = Some b →
  rd dev (log ++ [BusRead 0x50]) 0x51 = Some x →
  rd dev (log ++ [BusRead 0x50; BusRead 0x51]) 0x52 = Some y →
  rd dev (log ++ [BusRead 0x50; BusRead 0x51; BusRead 0x52]) 0x53 = Some w →
  0 ≤ x ≤ 255 → 0 ≤ y ≤ 255 → 0 ≤ w ≤ 255 →
  ∃ r,
    result (read_mouse_report dev) log = Some r
    ∧ buttons r = b
    ∧ delta_x r = (if x <? 128 then x else x - 256)
    ∧ delta_y r = (if y <? 128 then y else y - 256)
    ∧ wheel r = (if w <? 128 then w else w - 256)
    ∧ (-128 ≤ delta_x r ≤ 127 ∧ -128 ≤ delta_y r ≤ 127 ∧ -128 ≤ wheel r ≤ 127)
    ∧ (∀ v, -128 ≤ v ≤ 127 →
         (x = v mod 256 → delta_x r = v)
         ∧ (y = v mod 256 → delta_y r = v)
         ∧ (w = v mod 256 → wheel r = v))
    ∧ left_button r = Z.testbit b 0
    ∧ right_button r = Z.testbit b 1
    ∧ middle_button r = Z.testbit b 2.
Proof.
  intros Hb Hx Hy Hw Rx Ry Rw.
  unfold result, read_mouse_report, read_register, mbind, io_bind, mret, io_ret,
    REG_MOUSE_BUTTONS, REG_MOUSE_DELTA_X, REG_MOUSE_DELTA_Y, REG_MOUSE_WHEEL.
  cbn zeta. rewrite <- !app_assoc. cbn [app].
  rewrite Hb, Hx, Hy, Hw. cbn [fst].
  eexists. split; [reflexivity|]. cbn [buttons delta_x delta_y wheel
    left_button right_button middle_button].
  repeat split;
    try (apply to_signed_range; assumption);
    try (intros ->; by apply to_signed_of_byte).
  - apply (land_pow2_testbit b 0). lia.
  - apply (land_pow2_testbit b 1). lia.
  - apply (land_pow2_testbit b 2). lia.
Qed.

Lemma read_mouse_report_signed_witness :
  ∃ r, result (read_mouse_report mouse_device) [] = Some r
       ∧ buttons r = 0x02 ∧ delta_x r = 10 ∧ delta_y r = -5 ∧ wheel r = -1.
Proof.
  destruct (read_mouse_report_signed mouse_device [] 0x02 10 251 255)
    as (r & Hr & Hbt & Hdx & Hdy & Hwh & _);
    [reflexivity | reflexivity | reflexivity | reflexivity | lia | lia | lia |].
  exists r. repeat split; assumption.
Defined.

(** ** C1: the identity fields of the enumeration status *)

(** When the read of the enum-error register fails, the identity is
    reported although that register did not read zero. *)
Lemma ids_exposed_when_error_read_fails :
  st_vendor_id (result (check_enumeration_status error_unreadable_device) []) = 0x1d50
  ∧ st_product_id (result (check_enumeration_status error_unreadable_device) []) = 0x615b
  ∧ ¬ ids_only_when_done_and_error_reads_zero error_unreadable_device [].
Proof.
  split; [reflexivity|]. split; [reflexivity|].
  intros [[Hvid _] | [_ Herr]]; [discriminate Hvid | discriminate Herr].
Qed.

(** The whole of [check_enumeration_status] in terms of the answers of
    the device. *)
Lemma check_enumeration_status_run (dev : device) (log : list bus_op) :
  let done := rd dev log 0x02 in
  let error := rd dev (log ++ reads [0x02]) 0x03 in
  let code := rd dev (log ++ reads [0x02; 0x03]) 0x04 in
  let log3 := log ++ reads status_regs in
  let go := flag_of done && negb (flag_of error) in
  let vid_lo := rd dev log3 0x10 in
  let vid_hi := rd dev (log3 ++ reads [0x10]) 0x11 in
  let pid_lo := rd dev (log3 ++ reads [0x10; 0x11]) 0x12 in
  let pid_hi := rd dev (log3 ++ reads [0x10; 0x11; 0x12]) 0x13 in
  let ids :=
    if go then
      match vid_lo, vid_hi, pid_lo, pid_hi with
      | Some vl, Some vh, Some pl, Some ph => (word16 vh vl, word16 ph pl)
      | _, _, _, _ => (0, 0)
      end
    else (0, 0) in
  let log' := log3 ++ (if go then reads identity_regs else []) in
  let kbd := rd dev log' 0x20 in
  let mouse := rd dev (log' ++ reads [0x20]) 0x40 in
  check_enumeration_status dev log
  = (Status (flag_of done) (flag_of error) (default 0 code)
       (fst ids) (snd ids) (flag_of kbd) (flag_of mouse),
     log' ++ reads activity_regs).
Proof.
  unfold check_enumeration_status, read_register, mbind, io_bind, mret, io_ret,
    reads, status_regs, identity_regs, activity_regs,
    REG_ENUM_DONE, REG_ENUM_ERROR, REG_ENUM_ERROR_CODE,
    REG_VENDOR_ID_LO, REG_VENDOR_ID_HI, REG_PRODUCT_ID_LO, REG_PRODUCT_ID_HI,
    REG_KBD_ACTIVE, REG_MOUSE_ACTIVE.
  cbn [map]. cbv beta iota zeta. rewrite <- !app_assoc. cbn [app].
  fold (flag_of (rd dev log 2)) (flag_of (rd dev (log ++ [BusRead 2]) 3)).
  destruct (flag_of (rd dev log 2) && negb (flag_of (rd dev (log ++ [BusRead 2]) 3))).
  - cbv beta iota. rewrite <- !app_assoc. cbn [app].
    destruct (rd dev (log ++ [BusRead 2; BusRead 3; BusRead 4]) 16),
      (rd dev (log ++ [BusRead 2; BusRead 3; BusRead 4; BusRead 16]) 17),
      (rd dev (log ++ [BusRead 2; BusRead 3; BusRead 4; BusRead 16; BusRead 17]) 18),
      (rd dev (log ++ [BusRead 2; BusRead 3; BusRead 4; BusRead 16; BusRead 17;
                       BusRead 18]) 19);
      cbv beta iota; rewrite <- ?app_assoc; cbn [app fst snd];
      destruct (rd dev (log ++ [BusRead 2; BusRead 3]) 4); reflexivity.
  - cbv beta iota. rewrite <- ?app_assoc, ?app_nil_r. cbn [app fst snd].
    rewrite ?app_nil_r.
    destruct (rd dev (log ++ [BusRead 2; BusRead 3]) 4); reflexivity.
Qed.

(** C1 (amended). For every combination of register read results,
    [check_enumeration_status] reports [vendor_id = 0] and
    [product_id = 0] unless the enum-done register reads non-zero and the
    enum-error register does not read non-zero (it reads zero, or its
    read fails and the error flag keeps its default).  Only when [done]
    is true and [error] is false are the identity registers read: the
    reads made are the three status registers, then 0x10 to 0x13 exactly
    in that case, then the two activity registers.  When the four
    identity reads succeed the result is
    [vendor_id = (vid_hi << 8) | vid_lo] and
    [product_id = (pid_hi << 8) | pid_lo]; if one of them fails both
    fields stay zero. *)
Theorem check_enumeration_status_ids (dev : device) (log : list bus_op)
    (done error vid_lo vid_hi pid_lo pid_hi : option Z) :
  rd dev log 0x02 = done →
  rd dev (log ++ [BusRead 0x02]) 0x03 = error →
  let log3 := log ++ [BusRead 0x02; BusRead 0x03; BusRead 0x04] in
  rd dev log3 0x10 = vid_lo →
  rd dev (log3 ++ [BusRead 0x10]) 0x11 = vid_hi →
  rd dev (log3 ++ [BusRead 0x10; BusRead 0x11]) 0x12 = pid_lo →
  rd dev (log3 ++ [BusRead 0x10; BusRead 0x11; BusRead 0x12]) 0x13 = pid_hi →
  let st := result (check_enumeration_status dev) log in
  st_done st = flag_of done
  ∧ st_error st = flag_of error
  ∧ (st_done st && negb (st_error st) = false →
       st_vendor_id st = 0 ∧ st_product_id st = 0)
  ∧ (st_done st && negb (st_error st) = true →
       match vid_lo, vid_hi, pid_lo, pid_hi with
       | Some vl, Some vh, Some pl, Some ph =>
           st_vendor_id st = Z.lor (Z.shiftl vh 8) vl
           ∧ st_product_id st = Z.lor (Z.shiftl ph 8) pl
       | _, _, _, _ => st_vendor_id st = 0 ∧ st_product_id st = 0
       end)
  ∧ (st_vendor_id st ≠ 0 ∨ st_product_id st ≠ 0 →
       (∃ d, done = Some d ∧ d ≠ 0) ∧ (error = Some 0 ∨ error = None))
  ∧ trace (check_enumeration_status dev) log
    = log ++ [BusRead 0x02; BusRead 0x03; BusRead 0x04]
          ++ (if st_done st && negb (st_error st)
              then [BusRead 0x10; BusRead 0x11; BusRead 0x12; BusRead 0x13]
              else [])
          ++ [BusRead 0x20; BusRead 0x40]
  ∧ (∀ reg, reg ∈ identity_regs →
       BusRead reg ∈ drop (length log) (trace (check_enumeration_status dev) log)
       ↔ st_done st = true ∧ st_error st = false).
Proof.
  intros Hdone Herror log3 Hvl Hvh Hpl Hph st.
  assert (Htrace : trace (check_enumeration_status dev) log
    = log ++ [BusRead 0x02; BusRead 0x03; BusRead 0x04]
          ++ (if flag_of done && negb (flag_of error)
              then [BusRead 0x10; BusRead 0x11; BusRead 0x12; BusRead 0x13]
              else [])
          ++ [BusRead 0x20; BusRead 0x40]).
  { unfold trace. rewrite check_enumeration_status_run. cbn [snd].
    unfold reads, status_regs, identity_regs, activity_regs,
      REG_ENUM_DONE, REG_ENUM_ERROR, REG_ENUM_ERROR_CODE,
      REG_VENDOR_ID_LO, REG_VENDOR_ID_HI, REG_PRODUCT_ID_LO, REG_PRODUCT_ID_HI,
      REG_KBD_ACTIVE, REG_MOUSE_ACTIVE.
    cbn [map]. rewrite Hdone, Herror.
    destruct (flag_of done && negb (flag_of error)); by rewrite <- !app_assoc. }
  assert (Hreads : ∀ reg, reg ∈ identity_regs →
    BusRead reg ∈ drop (length log) (trace (check_enumeration_status dev) log)
    ↔ flag_of done = true ∧ flag_of error = false).
  { intros reg Hreg. rewrite Htrace, drop_app_length.
    unfold identity_regs, REG_VENDOR_ID_LO, REG_VENDOR_ID_HI, REG_PRODUCT_ID_LO,
      REG_PRODUCT_ID_HI in Hreg.
    destruct (flag_of done), (flag_of error); cbn [andb negb app];
      rewrite !elem_of_cons, ?elem_of_nil in *; split;
      try (intros [? ?]; discriminate); try done.
    - intros H. repeat destruct H as [H|H]; try discriminate H;
        repeat destruct Hreg as [Hreg|Hreg]; subst; try discriminate H; done.
    - intros _. repeat destruct Hreg as [Hreg|Hreg]; subst; try done; tauto.
    - intros H. repeat destruct H as [H|H]; try discriminate H;
        repeat destruct Hreg as [Hreg|Hreg]; subst; try discriminate H; done.
    - intros H. repeat destruct H as [H|H]; try discriminate H;
        repeat destruct Hreg as [Hreg|Hreg]; subst; try discriminate H; done. }
  assert (Hst : st_done st = flag_of done ∧ st_error st = flag_of error
    ∧ (st_vendor_id st, st_product_id st)
      = if flag_of done && negb (flag_of error) then
          match vid_lo, vid_hi, pid_lo, pid_hi with
          | Some vl, Some vh, Some pl, Some ph => (word16 vh vl, word16 ph pl)
          | _, _, _, _ => (0, 0)
          end
        else (0, 0)).
  { subst st log3. revert Hvl Hvh Hpl Hph.
    unfold result, check_enumeration_status, read_register, mbind, io_bind,
      mret, io_ret, REG_ENUM_DONE, REG_ENUM_ERROR, REG_ENUM_ERROR_CODE,
      REG_VENDOR_ID_LO, REG_VENDOR_ID_HI, REG_PRODUCT_ID_LO, REG_PRODUCT_ID_HI.
    cbn zeta. rewrite <- !app_assoc. cbn [app].
    rewrite Hdone, Herror. fold (flag_of done) (flag_of error).
    destruct (flag_of done && negb (flag_of error)).
    - rewrite <- !app_assoc. cbn [app]. intros -> -> -> ->.
      destruct vid_lo, vid_hi, pid_lo, pid_hi; done.
    - done. }
  destruct Hst as (Hd & He & Hids). rewrite Hd, He.
  split; [done|]. split; [done|].
  enough (Hfields :
    (flag_of done && negb (flag_of error) = false →
       st_vendor_id st = 0 ∧ st_product_id st = 0)
    ∧ (flag_of done && negb (flag_of error) = true →
       match vid_lo, vid_hi, pid_lo, pid_hi with
       | Some vl, Some vh, Some pl, Some ph =>
           st_vendor_id st = Z.lor (Z.shiftl vh 8) vl
           ∧ st_product_id st = Z.lor (Z.shiftl ph 8) pl
       | _, _, _, _ => st_vendor_id st = 0 ∧ st_product_id st = 0
       end)
    ∧ (st_vendor_id st ≠ 0 ∨ st_product_id st ≠ 0 →
       (∃ d, done = Some d ∧ d ≠ 0) ∧ (error = Some 0 ∨ error = None))).
  { destruct Hfields as (H1 & H2 & H3).
    split; [exact H1|]. split; [exact H2|]. split; [exact H3|].
    split; [exact Htrace | exact Hreads]. }
  destruct (flag_of done && negb (flag_of error)) eqn:Hgo.
  - split; [discriminate|]. split.
    + intros _. destruct vid_lo, vid_hi, pid_lo, pid_hi;
        by inversion Hids.
    + intros _. apply andb_true_iff in Hgo as [Hgd Hge].
      apply negb_true_iff in Hge. split.
      * destruct done as [d|]; [|discriminate]. exists d. split; [done|].
        intros ->. discriminate.
      * destruct error as [e|]; [|by right]. left. f_equal.
        unfold flag_of, nonzero in Hge. apply negb_false_iff in Hge.
        by apply Z.eqb_eq.
  - inversion Hids as [[Hv Hp]]. split; [done|]. split; [discriminate|].
    intros [?|?]; done.
Qed.

Lemma check_enumeration_status_ids_witness :
  st_vendor_id (result (check_enumeration_status enumerated_device) []) = 0x1d50
  ∧ st_product_id (result (check_enumeration_status enumerated_device) []) = 0x615b.
Proof.
  destruct (check_enumeration_status_ids enumerated_device []
              (Some 1) (Some 0) (Some 0x50) (Some 0x1d) (Some 0x5b) (Some 0x61))
    as (_ & _ & _ & Hids & _); try reflexivity.
  apply Hids. reflexivity.
Defined.

(** ** C8: the registers the host writes *)

Section Confinement.

Variable dev : device.

Lemma confined_ret {A} (x : A) : writes_confined (mret x).
Proof. intros log. exists []. by rewrite app_nil_r. Qed.

Lemma confined_bind {A B} (m : io A) (f : A → io B) :
  writes_confined m → (∀ a, writes_confined (f a)) →
  writes_confined (m ≫= f).
Proof.
  intros Hm Hf log. unfold trace, mbind, io_bind.
  destruct (Hm log) as (ops1 & Htr1 & Hok1). unfold trace in Htr1.
  destruct (m log) as [a log1]. simpl in Htr1. subst log1.
  destruct (Hf a (log ++ ops1)) as (ops2 & Htr2 & Hok2).
  exists (ops1 ++ ops2). split.
  - unfold trace in Htr2. by rewrite Htr2, app_assoc.
  - by apply Forall_app.
Qed.

Lemma confined_sleep (ms : Z) : writes_confined (sleep ms).
Proof. intros log. exists [Delay ms]. split; [done|]. by repeat constructor. Qed.

Lemma confined_read (reg : Z) : writes_confined (read_register dev reg).
Proof. intros log. exists [BusRead reg]. split; [done|]. by repeat constructor. Qed.

Lemma confined_write (reg value : Z) :
  reg = REG_HOST_MODE_ENABLE ∨ reg = REG_ENUM_START →
  writes_confined (write_register dev reg value).
Proof.
  intros Hreg log. exists [BusWrite reg value]. split; [done|].
  constructor; [exact Hreg | constructor].
Qed.

Lemma confined_when (c : bool) (m : io unit) :
  writes_confined m → writes_confined (when c m).
Proof. intros Hm. destruct c; [exact Hm | apply confined_ret]. Qed.

Ltac confine :=
  repeat first
    [ apply confined_ret | apply confined_sleep | apply confined_read
    | apply confined_write; [by (left + right)]
    | apply confined_bind; [|intros ?]
    | match goal with
      | |- writes_confined (if ?c then _ else _) => destruct c
      | |- writes_confined (match ?o with _ => _ end) => destruct o
      end ].

Lemma confined_enable_host_mode : writes_confined (enable_host_mode dev).
Proof. unfold enable_host_mode. confine. Qed.

Lemma confined_disable_host_mode : writes_confined (disable_host_mode dev).
Proof. unfold disable_host_mode. confine. Qed.

Lemma confined_start_enumeration : writes_confined (start_enumeration dev).
Proof. unfold start_enumeration. confine. Qed.

Lemma confined_check_enumeration_status :
  writes_confined (check_enumeration_status dev).
Proof. unfold check_enumeration_status. confine. Qed.

Lemma confined_read_keyboard_bytes (indices report : list Z) :
  writes_confined (read_keyboard_bytes dev indices report).
Proof.
  revert report. induction indices as [|i rest IH]; intros report; simpl.
  - apply confined_ret.
  - apply confined_bind; [apply confined_read|].
    intros [v|]; [apply IH | apply confined_ret].
Qed.

Lemma confined_read_keyboard_report :
  writes_confined (read_keyboard_report dev).
Proof. apply confined_read_keyboard_bytes. Qed.

Lemma confined_read_mouse_report : writes_confined (read_mouse_report dev).
Proof. unfold read_mouse_report. confine. Qed.

Lemma confined_monitor_keyboard (polls : nat) :
  writes_confined (monitor_keyboard dev polls).
Proof.
  induction polls as [|polls IH]; simpl; [apply confined_ret|].
  apply confined_bind; [apply confined_read_keyboard_report|]. intros _.
  apply confined_bind; [apply confined_sleep|]. intros _. exact IH.
Qed.

Lemma confined_monitor_mouse (polls : nat) :
  writes_confined (monitor_mouse dev polls).
Proof.
  induction polls as [|polls IH]; simpl; [apply confined_ret|].
  apply confined_bind; [apply confined_read_mouse_report|]. intros _.
  apply confined_bind; [apply confined_sleep|]. intros _. exact IH.
Qed.

Lemma confined_wait_enumeration (rounds : nat) :
  writes_confined (wait_enumeration dev rounds).
Proof.
  induction rounds as [|rounds IH]; simpl; [apply confined_ret|].
  apply confined_bind; [apply confined_sleep|]. intros _.
  apply confined_bind; [apply confined_check_enumeration_status|]. intros st.
  destruct (st_done st); [apply confined_ret|].
  destruct (st_error st); [apply confined_ret | exact IH].
Qed.

Lemma confined_main (a : args) (polls : nat) :
  writes_confined (main dev a polls).
Proof.
  unfold main, print_status.
  repeat first
    [ apply confined_when
    | apply confined_enable_host_mode | apply confined_disable_host_mode
    | apply confined_start_enumeration | apply confined_wait_enumeration
    | apply confined_check_enumeration_status
    | apply confined_monitor_keyboard | apply confined_monitor_mouse
    | apply confined_ret | apply confined_sleep
    | apply confined_bind; [|intros ?]
    | match goal with
      | |- writes_confined (if ?c then _ else _) => destruct c
      end ].
Qed.

End Confinement.

(** C8. The host-side controller never writes a live-report, identity or
    status register: whatever the device answers and whichever actions
    are requested, every [write_register] the script performs addresses
    register 0x00 (host-mode enable) or 0x01 (enum-start); every other
    register only ever appears in reads. *)
Theorem host_writes_only_control_registers
    (dev : device) (a : args) (polls : nat) (reg value : Z) :
  BusWrite reg value ∈ trace (main dev a polls) [] →
  reg = 0x00 ∨ reg = 0x01.
Proof.
  intros Hin.
  destruct (confined_main dev a polls []) as (ops & Htr & Hok).
  rewrite Htr, app_nil_l in Hin.
  rewrite Forall_forall in Hok. exact (Hok _ Hin).
Qed.

(** Enable and enumerate against a device that answers zero everywhere:
    the writes are the enable write and the start pulse. *)
Lemma host_writes_only_control_registers_witness :
  BusWrite 0x01 1 ∈ trace (main zero_device (Args true false true false false) 0) []
  ∧ (0x01 = 0x00 ∨ 0x01 = 0x01).
Proof.
  assert (Hin : BusWrite 0x01 1
                ∈ trace (main zero_device (Args true false true false false) 0) []).
  { apply list_elem_of_In. vm_compute. tauto. }
  split; [exact Hin|].
  exact (host_writes_only_control_registers zero_device
           (Args true false true false false) 0 0x01 1 Hin).
Defined.

(** ** C9: the payload of [descriptor.add] *)

Lemma string_length_app (s1 s2 : string) :
  String.length (s1 +:+ s2) = (String.length s1 + String.length s2)%nat.
Proof. induction s1 as [|c s1 IH]; simpl; [done | by rewrite IH]. Qed.

Lemma count_app (c : ascii) (s1 s2 : string) :
  PyFormat.count c (s1 +:+ s2) = (PyFormat.count c s1 + PyFormat.count c s2)%nat.
Proof. induction s1 as [|a s1 IH]; simpl; [done | rewrite IH; lia]. Qed.

(** On a byte the format is exactly two lowercase digits. *)
Lemma format_02x_byte (b : Z) :
  0 ≤ b < 256 → PyFormat.format_02x b = spec_two_digit_hex b.
Proof.
  intros Hb. apply String.eqb_eq.
  apply (byte_cases (λ b, String.eqb (PyFormat.format_02x b) (spec_two_digit_hex b)));
    [vm_compute; reflexivity | exact Hb].
Qed.

Lemma two_digit_hex_no_comma (b : Z) :
  0 ≤ b < 256 → PyFormat.count "," (spec_two_digit_hex b) = 0%nat.
Proof.
  intros Hb. apply Nat.eqb_eq.
  apply (byte_cases (λ b, Nat.eqb (PyFormat.count "," (spec_two_digit_hex b)) 0));
    [vm_compute; reflexivity | exact Hb].
Qed.

(** Joining [n > 0] comma-free groups of two characters gives [3n - 1]
    characters, [n - 1] of them commas. *)
Lemma join_groups (groups : list string) :
  Forall (λ g, String.length g = 2%nat ∧ PyFormat.count "," g = 0%nat) groups →
  groups ≠ [] →
  (String.length (PyFormat.join "," groups) + 1 = 3 * length groups)%nat
  ∧ (PyFormat.count "," (PyFormat.join "," groups) + 1 = length groups)%nat.
Proof.
  induction groups as [|g rest IH]; intros Hall Hne; [done|].
  apply Forall_cons in Hall as [[Hlen Hcnt] Hrest].
  destruct rest as [|g' rest'].
  - simpl. lia.
  - destruct (IH Hrest) as [IHlen IHcnt]; [done|].
    change (PyFormat.join "," (g :: g' :: rest'))
      with (g +:+ "," +:+ PyFormat.join "," (g' :: rest')).
    rewrite !string_length_app, !count_app.
    change (String.length ",") with 1%nat.
    change (PyFormat.count "," ",") with 1%nat.
    simpl length in *. lia.
Qed.

(** C9. For every list of descriptor bytes, each in [0, 255], the
    generated [descriptor.add] command line is the [(addr,iface)]
    argument list followed by the payload in braces; the payload is the
    bytes rendered as lowercase two-digit hexadecimal separated by commas
    (byte 5 renders as [05]), so for a non-empty list of [n] bytes it has
    exactly [n] two-digit groups and [n - 1] commas. *)
Theorem add_descriptor_payload (device_addr interface : Z) (descriptor_bytes : list Z) :
  Forall (λ b, 0 ≤ b ≤ 255) descriptor_bytes →
  DescriptorTester.add_descriptor_cmd device_addr interface descriptor_bytes
  = "nozen.descriptor.add(" +:+ PyFormat.str device_addr +:+ "," +:+
    PyFormat.str interface +:+ ")" +:+
    "{" +:+ DescriptorTester.hex_str descriptor_bytes +:+ "}"
  ∧ DescriptorTester.hex_str descriptor_bytes = spec_payload descriptor_bytes
  ∧ length (map spec_two_digit_hex descriptor_bytes) = length descriptor_bytes
  ∧ Forall (λ g, String.length g = 2%nat) (map spec_two_digit_hex descriptor_bytes)
  ∧ (descriptor_bytes ≠ [] →
       String.length (DescriptorTester.hex_str descriptor_bytes)
       = (3 * length descriptor_bytes - 1)%nat
       ∧ PyFormat.count "," (DescriptorTester.hex_str descriptor_bytes)
         = (length descriptor_bytes - 1)%nat).
Proof.
  intros Hbytes.
  assert (Hpayload : DescriptorTester.hex_str descriptor_bytes
                     = spec_payload descriptor_bytes).
  { unfold DescriptorTester.hex_str, spec_payload. f_equal.
    apply map_ext_in. intros b Hb. apply format_02x_byte.
    rewrite Forall_forall in Hbytes. apply list_elem_of_In in Hb.
    specialize (Hbytes b Hb). lia. }
  split; [reflexivity|]. split; [exact Hpayload|].
  split; [apply length_map|]. split.
  - apply Forall_forall. intros g Hg.
    apply list_elem_of_In, in_map_iff in Hg as (b & <- & _). reflexivity.
  - intros Hne. rewrite Hpayload. unfold spec_payload.
    destruct (join_groups (map spec_two_digit_hex descriptor_bytes)) as [Hlen Hcnt].
    + apply Forall_forall. intros g Hg.
      apply list_elem_of_In, in_map_iff in Hg as (b & <- & Hb).
      split; [reflexivity|]. apply two_digit_hex_no_comma.
      rewrite Forall_forall in Hbytes. apply list_elem_of_In in Hb.
      specialize (Hbytes b Hb). lia.
    + destruct descriptor_bytes; [done | discriminate].
    + rewrite length_map in Hlen, Hcnt. lia.
Qed.

Lemma add_descriptor_payload_witness :
  DescriptorTester.add_descriptor_cmd 1 0 DescriptorTester.MOUSE_DESCRIPTOR_head
  = "nozen.descriptor.add(1,0){05,01,09,02}"
  ∧ String.length (DescriptorTester.hex_str DescriptorTester.MOUSE_DESCRIPTOR_head)
    = 11%nat
  ∧ PyFormat.count "," (DescriptorTester.hex_str DescriptorTester.MOUSE_DESCRIPTOR_head)
    = 3%nat.
Proof.
  destruct (add_descriptor_payload 1 0 DescriptorTester.MOUSE_DESCRIPTOR_head)
    as (Hcmd & _ & _ & _ & Hcount).
  - repeat constructor; lia.
  - split; [exact Hcmd|]. apply Hcount. discriminate.
Defined.

(** * Further properties of the controller *)

(** ** Reading the keyboard report *)

Lemma answers_app (dev : device) (log : list bus_op) (regs1 regs2 : list Z) :
  answers dev log (regs1 ++ regs2)
  = answers dev log regs1 ++ answers dev (log ++ reads regs1) regs2.
Proof.
  revert log. induction regs1 as [|reg regs1 IH]; intros log; simpl.
  - by rewrite app_nil_r.
  - rewrite IH. unfold reads. simpl. by rewrite <- app_assoc.
Qed.

Lemma answers_length (dev : device) (log : list bus_op) (regs : list Z) :
  length (answers dev log regs) = length regs.
Proof. revert log. induction regs as [|reg regs IH]; intros log; simpl; auto. Qed.

(** The loop of [read_keyboard_report] reads register after register,
    stops behind the first failure, and returns the bytes read when there
    was none. *)
Lemma read_keyboard_bytes_run (dev : device) (indices report : list Z)
    (log : list bus_op) :
  let regs := map (λ i, REG_KBD_REPORT_BASE + i) indices in
  let ans := answers dev log regs in
  let got := values_before_failure ans in
  result (read_keyboard_bytes dev indices report) log
    = (if all_answered ans then Some (report ++ got) else None)
  ∧ trace (read_keyboard_bytes dev indices report) log
    = log ++ reads (take (if all_answered ans then length regs
                          else S (length got)) regs).
Proof.
  revert report log. induction indices as [|i rest IH]; intros report log.
  - simpl. unfold result, trace, mret, io_ret. simpl.
    by rewrite !app_nil_r.
  - cbn zeta. cbn [map answers]. unfold result, trace in *.
    cbn [read_keyboard_bytes]. unfold mbind, io_bind, read_register.
    cbv beta iota.
    destruct (rd dev log (REG_KBD_REPORT_BASE + i)) as [v|] eqn:Hrd.
    + destruct (IH (report ++ [v]) (log ++ [BusRead (REG_KBD_REPORT_BASE + i)]))
        as [Hres Htr].
      cbn [all_answered forallb values_before_failure andb].
      fold (all_answered (answers dev (log ++ [BusRead (REG_KBD_REPORT_BASE + i)])
              (map (λ i, REG_KBD_REPORT_BASE + i) rest))).
      rewrite Hres, Htr. split.
      * destruct (all_answered _); [|done]. by rewrite <- app_assoc.
      * rewrite <- app_assoc. f_equal.
        destruct (all_answered _); reflexivity.
    + simpl. done.
Qed.

Lemma read_keyboard_report_run (dev : device) (log : list bus_op) :
  result (read_keyboard_report dev) log
    = (if all_answered (answers dev log kbd_regs)
       then Some (values_before_failure (answers dev log kbd_regs))
       else None)
  ∧ trace (read_keyboard_report dev) log
    = log ++ reads (take (if all_answered (answers dev log kbd_regs)
                          then length kbd_regs
                          else S (length (values_before_failure
                                            (answers dev log kbd_regs))))
                      kbd_regs).
Proof. exact (read_keyboard_bytes_run dev [0; 1; 2; 3; 4; 5; 6; 7] [] log). Qed.

Lemma all_answered_values (ans : list (option Z)) (vs : list Z) :
  ans = map Some vs ↔ all_answered ans = true ∧ values_before_failure ans = vs.
Proof.
  revert vs. induction ans as [|[v|] ans IH]; intros [|w vs]; simpl;
    try (split; [done | intros [? ?]; done]).
  split.
  - intros [= -> Hans]. apply IH in Hans as [-> ->]. done.
  - intros [Hall [= -> Hvs]]. f_equal. apply IH. done.
Qed.

(** X1. [read_keyboard_report] returns a report exactly when registers
    0x30 to 0x37 all answer, and the report is then their eight bytes in
    that order, after exactly those eight reads. *)
Theorem read_keyboard_report_success (dev : device) (log : list bus_op)
    (report : list Z) :
  (result (read_keyboard_report dev) log = Some report
   ↔ answers dev log kbd_regs = map Some report)
  ∧ (result (read_keyboard_report dev) log = Some report →
     length report = 8%nat
     ∧ trace (read_keyboard_report dev) log = log ++ reads kbd_regs).
Proof.
  destruct (read_keyboard_report_run dev log) as [Hr Ht].
  rewrite Hr, Ht, all_answered_values.
  assert (Hlen := answers_length dev log kbd_regs).
  destruct (all_answered (answers dev log kbd_regs)) eqn:Hall.
  - split.
    + split; [intros [= <-]; done | intros [_ ->]; done].
    + intros [= <-].
      assert (Hans : answers dev log kbd_regs
                     = map Some (values_before_failure (answers dev log kbd_regs)))
        by (by apply all_answered_values).
      rewrite Hans, length_map in Hlen. split; [exact Hlen | reflexivity].
  - split; [|discriminate]. split; [discriminate | intros [? _]; done].
Qed.

Lemma read_keyboard_report_success_witness :
  length [0; 0; 0; 0; 0; 0; 0; 0] = 8%nat
  ∧ trace (read_keyboard_report zero_device) []
    = reads [0x30; 0x31; 0x32; 0x33; 0x34; 0x35; 0x36; 0x37].
Proof.
  destruct (read_keyboard_report_success zero_device [] [0; 0; 0; 0; 0; 0; 0; 0])
    as [_ Hshape].
  apply Hshape. reflexivity.
Defined.

(** X2. [read_keyboard_report] gives up at the first failed read: if the
    first [k] registers answer and register [0x30 + k] does not, the
    result is [None] and no register behind [0x30 + k] is read. *)
Theorem read_keyboard_report_stops_at_failure (dev : device) (log : list bus_op)
    (k : nat) (got : list Z) :
  (k < 8)%nat →
  answers dev log (take (S k) kbd_regs) = map Some got ++ [None] →
  result (read_keyboard_report dev) log = None
  ∧ trace (read_keyboard_report dev) log = log ++ reads (take (S k) kbd_regs).
Proof.
  intros Hk Hans.
  destruct (read_keyboard_report_run dev log) as [Hr Ht].
  assert (Hsplit : answers dev log kbd_regs
                   = (map Some got ++ [None])
                     ++ answers dev (log ++ reads (take (S k) kbd_regs))
                          (drop (S k) kbd_regs)).
  { rewrite <- Hans, <- answers_app, take_drop. reflexivity. }
  assert (Hgot : length got = k).
  { apply (f_equal length) in Hans.
    rewrite answers_length, length_take, length_app, length_map in Hans.
    change (length kbd_regs) with 8%nat in Hans. simpl in Hans. lia. }
  assert (Hfail : ∀ rest, all_answered ((map Some got ++ [None]) ++ rest) = false
                          ∧ values_before_failure ((map Some got ++ [None]) ++ rest) = got).
  { intros rest. clear. induction got as [|v got IHg]; simpl; [done|].
    destruct IHg as [-> ->]. done. }
  rewrite Hsplit in Hr, Ht.
  destruct (Hfail (answers dev (log ++ reads (take (S k) kbd_regs))
                     (drop (S k) kbd_regs))) as [Hall Hval].
  rewrite Hall in Hr, Ht. rewrite Hval, Hgot in Ht.
  split; [exact Hr | exact Ht].
Qed.

Lemma read_keyboard_report_stops_at_failure_witness :
  result (read_keyboard_report kbd_gap_device) [] = None
  ∧ trace (read_keyboard_report kbd_gap_device) []
    = reads [0x30; 0x31; 0x32; 0x33].
Proof.
  apply (read_keyboard_report_stops_at_failure kbd_gap_device [] 3 [0; 0; 0]).
  - lia.
  - reflexivity.
Defined.

(** ** Decoding what was read *)

Lemma decode_keyboard_report_fields (report : list Z) :
  length report = 8%nat →
  decode_keyboard_report report
  = <["raw" := PyStr (bytes_hex report)]>
      (<["keys" := PyList (spec_keys report)]>
         (<["modifiers" := PyList (spec_modifiers (byte_at report 0))]> ∅)).
Proof.
  intros Hlen. unfold decode_keyboard_report.
  rewrite Hlen. cbn [Nat.eqb negb].
  by rewrite modifiers_loop, keys_loop.
Qed.

Lemma read_keyboard_report_length (dev : device) (log : list bus_op)
    (report : list Z) :
  result (read_keyboard_report dev) log = Some report → length report = 8%nat.
Proof.
  intros Hres. destruct (read_keyboard_report_run dev log) as [Hr _].
  rewrite Hr in Hres.
  destruct (all_answered (answers dev log kbd_regs)) eqn:Hall; [|discriminate].
  injection Hres as <-.
  assert (Hans : answers dev log kbd_regs
                 = map Some (values_before_failure (answers dev log kbd_regs)))
    by (by apply all_answered_values).
  apply (f_equal length) in Hans.
  by rewrite answers_length, length_map in Hans.
Qed.

(** X3. A report that [read_keyboard_report] returns is always decoded:
    [decode_keyboard_report] never answers it with the empty dictionary,
    so the ['modifiers'], ['keys'] and ['raw'] entries the keyboard
    monitor looks up are present. *)
Theorem decode_of_read_report (dev : device) (log : list bus_op) (report : list Z) :
  result (read_keyboard_report dev) log = Some report →
  decode_keyboard_report report ≠ ∅
  ∧ is_Some (decode_keyboard_report report !! "modifiers")
  ∧ is_Some (decode_keyboard_report report !! "keys")
  ∧ is_Some (decode_keyboard_report report !! "raw").
Proof.
  intros Hres. apply read_keyboard_report_length in Hres.
  rewrite (decode_keyboard_report_fields report Hres).
  split; [apply insert_non_empty|].
  split; [|split].
  - rewrite lookup_insert_ne, lookup_insert_ne, lookup_insert_eq by done. eauto.
  - rewrite lookup_insert_ne, lookup_insert_eq by done. eauto.
  - rewrite lookup_insert_eq. eauto.
Qed.

Lemma decode_of_read_report_witness :
  decode_keyboard_report [0; 0; 0; 0; 0; 0; 0; 0] ≠ ∅
  ∧ is_Some (decode_keyboard_report [0; 0; 0; 0; 0; 0; 0; 0] !! "modifiers")
  ∧ is_Some (decode_keyboard_report [0; 0; 0; 0; 0; 0; 0; 0] !! "keys")
  ∧ is_Some (decode_keyboard_report [0; 0; 0; 0; 0; 0; 0; 0] !! "raw").
Proof.
  apply (decode_of_read_report zero_device [] [0; 0; 0; 0; 0; 0; 0; 0]).
  reflexivity.
Defined.

(** X4. A decoded report never lists more than eight modifiers or more
    than six keys, and the reserved byte 1 has no influence: two 8-byte
    reports that differ only in byte 1 give the same ['modifiers'] and
    ['keys']. *)
Theorem decode_bounds_and_reserved_byte (b0 b1 b1' b2 b3 b4 b5 b6 b7 : Z) :
  let report := [b0; b1; b2; b3; b4; b5; b6; b7] in
  let report' := [b0; b1'; b2; b3; b4; b5; b6; b7] in
  ∃ modifiers keys,
    decode_keyboard_report report !! "modifiers" = Some (PyList modifiers)
    ∧ decode_keyboard_report report !! "keys" = Some (PyList keys)
    ∧ decode_keyboard_report report' !! "modifiers" = Some (PyList modifiers)
    ∧ decode_keyboard_report report' !! "keys" = Some (PyList keys)
    ∧ (length modifiers ≤ 8)%nat
    ∧ (length keys ≤ 6)%nat.
Proof.
  intros report report'.
  exists (spec_modifiers b0), (spec_keys report).
  rewrite (decode_keyboard_report_fields report eq_refl).
  rewrite (decode_keyboard_report_fields report' eq_refl).
  repeat split.
  - unfold spec_modifiers. rewrite length_map.
    etransitivity; [apply List.filter_length_le|]. reflexivity.
  - unfold spec_keys. rewrite length_map.
    etransitivity; [apply List.filter_length_le|]. reflexivity.
Qed.

(** ** Reading the mouse report *)

Lemma read_mouse_report_run (dev : device) (log : list bus_op) :
  let b := rd dev log 0x50 in
  let x := rd dev (log ++ reads [0x50]) 0x51 in
  let y := rd dev (log ++ reads [0x50; 0x51]) 0x52 in
  let w := rd dev (log ++ reads [0x50; 0x51; 0x52]) 0x53 in
  read_mouse_report dev log
  = (match b, x, y, w with
     | Some b, Some xr, Some yr, Some wr =>
         Some (MouseReport b (to_signed xr) (to_signed yr) (to_signed wr)
                 (nonzero (Z.land b 0x01)) (nonzero (Z.land b 0x02))
                 (nonzero (Z.land b 0x04)))
     | _, _, _, _ => None
     end,
     log ++ reads mouse_regs).
Proof.
  unfold read_mouse_report, read_register, mbind, io_bind, mret, io_ret,
    reads, mouse_regs, REG_MOUSE_BUTTONS, REG_MOUSE_DELTA_X, REG_MOUSE_DELTA_Y,
    REG_MOUSE_WHEEL.
  cbn [map]. cbv beta iota zeta. rewrite <- !app_assoc. cbn [app].
  destruct (rd dev log 80), (rd dev (log ++ [BusRead 80]) 81),
    (rd dev (log ++ [BusRead 80; BusRead 81]) 82),
    (rd dev (log ++ [BusRead 80; BusRead 81; BusRead 82]) 83); reflexivity.
Qed.

(** X5. [read_mouse_report] always reads the four registers 0x50 to 0x53,
    in that order, even after one of them failed, and it returns [None]
    exactly when at least one of the four reads failed. *)
Theorem read_mouse_report_reads_all (dev : device) (log : list bus_op) :
  trace (read_mouse_report dev) log
  = log ++ [BusRead 0x50; BusRead 0x51; BusRead 0x52; BusRead 0x53]
  ∧ (result (read_mouse_report dev) log = None
     ↔ all_answered (answers dev log mouse_regs) = false).
Proof.
  unfold trace, result. rewrite read_mouse_report_run. cbn [fst snd].
  split; [reflexivity|].
  unfold mouse_regs, REG_MOUSE_BUTTONS, REG_MOUSE_DELTA_X, REG_MOUSE_DELTA_Y,
    REG_MOUSE_WHEEL, reads.
  cbn [answers all_answered forallb map]. rewrite <- !app_assoc. cbn [app].
  destruct (rd dev log 80), (rd dev (log ++ [BusRead 80]) 81),
    (rd dev (log ++ [BusRead 80; BusRead 81]) 82),
    (rd dev (log ++ [BusRead 80; BusRead 81; BusRead 82]) 83); simpl;
    split; intros; done.
Qed.

Lemma read_mouse_report_reads_all_witness :
  result (read_mouse_report stalled_device) [] = None
  ∧ trace (read_mouse_report stalled_device) []
    = [BusRead 0x50; BusRead 0x51; BusRead 0x52; BusRead 0x53].
Proof.
  destruct (read_mouse_report_reads_all stalled_device []) as [Htr Hnone].
  split; [apply Hnone; reflexivity | exact Htr].
Defined.

(** X6. The signed decoding loses nothing: the register byte can be
    recovered from the decoded delta or wheel value as its residue modulo
    256, so different bytes decode to different values. *)
Theorem read_mouse_report_lossless (dev : device) (log : list bus_op)
    (b x y w : Z) (r : mouse_report) :
  answers dev log mouse_regs = [Some b; Some x; Some y; Some w] →
  0 ≤ x ≤ 255 → 0 ≤ y ≤ 255 → 0 ≤ w ≤ 255 →
  result (read_mouse_report dev) log = Some r →
  buttons r = b
  ∧ delta_x r mod 256 = x ∧ delta_y r mod 256 = y ∧ wheel r mod 256 = w.
Proof.
  intros Hans Hx Hy Hw. unfold result. rewrite read_mouse_report_run.
  cbn [fst]. revert Hans.
  unfold mouse_regs, REG_MOUSE_BUTTONS, REG_MOUSE_DELTA_X, REG_MOUSE_DELTA_Y,
    REG_MOUSE_WHEEL, reads.
  cbn [answers map]. rewrite <- !app_assoc. cbn [app].
  intros [= -> -> -> ->]. intros [= <-]. cbn [buttons delta_x delta_y wheel].
  assert (Hback : ∀ raw, 0 ≤ raw ≤ 255 → to_signed raw mod 256 = raw).
  { intros raw Hraw. unfold to_signed. destruct (Z.ltb_spec raw 128).
    - apply Z.mod_small. lia.
    - symmetry. apply (Z.mod_unique _ 256 (-1)); lia. }
  repeat split; auto.
Qed.

Lemma read_mouse_report_lossless_witness :
  ∃ r, result (read_mouse_report mouse_device) [] = Some r
       ∧ buttons r = 0x02
       ∧ delta_x r mod 256 = 10 ∧ delta_y r mod 256 = 251 ∧ wheel r mod 256 = 255.
Proof.
  exists (MouseReport 0x02 10 (-5) (-1) false true false).
  split; [reflexivity|].
  apply (read_mouse_report_lossless mouse_device [] 0x02 10 251 255);
    [reflexivity | lia | lia | lia | reflexivity].
Defined.

(** ** The status check *)

(** X7. [check_enumeration_status] only reads.  It reads the three status
    registers, then the four identity registers if and only if the done
    flag is set and the error flag is not, then the two activity
    registers: five reads or nine, never a write and never a sleep. *)
Theorem check_enumeration_status_reads (dev : device) (log : list bus_op) :
  let st := result (check_enumeration_status dev) log in
  trace (check_enumeration_status dev) log
  = log ++ reads status_regs
        ++ (if st_done st && negb (st_error st) then reads identity_regs else [])
        ++ reads activity_regs
  ∧ ∃ ops, trace (check_enumeration_status dev) log = log ++ ops
           ∧ forallb is_read ops = true
           ∧ length ops = (if st_done st && negb (st_error st) then 9 else 5)%nat.
Proof.
  unfold trace, result. rewrite check_enumeration_status_run.
  cbn [fst snd st_done st_error].
  set (go := flag_of _ && negb (flag_of _)).
  split; [by rewrite <- !app_assoc|].
  exists (reads status_regs ++ (if go then reads identity_regs else [])
          ++ reads activity_regs).
  split; [by rewrite <- !app_assoc|].
  destruct go; split; reflexivity.
Qed.

(** X8. When no register can be read at all, [check_enumeration_status]
    still returns: it makes its five reads and reports the defaults, not
    done, no error, error code 0, identity 0000:0000, nothing active. *)
Theorem check_enumeration_status_unreachable (dev : device) (log : list bus_op) :
  (∀ log' reg, rd dev log' reg = None) →
  result (check_enumeration_status dev) log = Status false false 0 0 0 false false
  ∧ trace (check_enumeration_status dev) log
    = log ++ [BusRead 0x02; BusRead 0x03; BusRead 0x04; BusRead 0x20; BusRead 0x40].
Proof.
  intros Hdead. unfold trace, result. rewrite check_enumeration_status_run.
  rewrite !Hdead. cbn [flag_of andb negb fst snd default].
  split; [reflexivity|]. by rewrite <- !app_assoc.
Qed.

Lemma check_enumeration_status_unreachable_witness :
  result (check_enumeration_status stalled_device) []
  = Status false false 0 0 0 false false
  ∧ trace (check_enumeration_status stalled_device) []
    = [BusRead 0x02; BusRead 0x03; BusRead 0x04; BusRead 0x20; BusRead 0x40].
Proof.
  apply (check_enumeration_status_unreachable stalled_device []).
  reflexivity.
Defined.

Lemma word16_bytes (hi lo : Z) :
  0 ≤ hi ≤ 255 → 0 ≤ lo ≤ 255 →
  word16 hi lo = 256 * hi + lo ∧ 0 ≤ word16 hi lo ≤ 65535.
Proof.
  intros Hhi Hlo. unfold word16.
  assert (Hdisj : Z.land (Z.shiftl hi 8) lo = 0).
  { apply Z.bits_inj'. intros n Hn. rewrite Z.land_spec, Z.bits_0.
    destruct (Z.lt_ge_cases n 8) as [Hlt|Hge].
    - rewrite Z.shiftl_spec_low by lia. reflexivity.
    - replace (Z.testbit lo n) with false; [apply andb_false_r|].
      symmetry. destruct (Z.eq_dec lo 0) as [->|Hnz]; [apply Z.bits_0|].
      apply Z.bits_above_log2; [lia|].
      apply Z.log2_lt_pow2; [lia|].
      apply Z.lt_le_trans with (2 ^ 8); [simpl; lia|].
      apply Z.pow_le_mono_r; lia. }
  rewrite <- Z.lxor_lor by exact Hdisj.
  rewrite <- Z.add_nocarry_lxor by exact Hdisj.
  rewrite Z.shiftl_mul_pow2 by lia. change (2 ^ 8) with 256. lia.
Qed.

(** X9. If every register holds a byte, the status fields stay in their
    widths: [vendor_id] and [product_id] lie in [0, 65535] and
    [error_code] in [0, 255]. *)
Theorem check_enumeration_status_widths (dev : device) (log : list bus_op) :
  byte_device dev →
  let st := result (check_enumeration_status dev) log in
  0 ≤ st_vendor_id st ≤ 65535
  ∧ 0 ≤ st_product_id st ≤ 65535
  ∧ 0 ≤ st_error_code st ≤ 255.
Proof.
  intros Hbytes. unfold result. rewrite check_enumeration_status_run.
  cbn [fst st_vendor_id st_product_id st_error_code].
  set (go := flag_of _ && negb (flag_of _)).
  assert (Hword : ∀ hi lo l1 r1 l2 r2,
            rd dev l1 r1 = Some hi → rd dev l2 r2 = Some lo →
            0 ≤ word16 hi lo ≤ 65535).
  { intros hi lo l1 r1 l2 r2 Hhi Hlo.
    apply Hbytes in Hhi, Hlo. by apply word16_bytes. }
  split; [|split].
  - destruct go; cbn [fst]; [|lia].
    repeat match goal with
           | |- context [match rd dev ?l ?r with _ => _ end] =>
               destruct (rd dev l r) eqn:?
           end; cbn [fst]; try lia; eauto.
  - destruct go; cbn [snd]; [|lia].
    repeat match goal with
           | |- context [match rd dev ?l ?r with _ => _ end] =>
               destruct (rd dev l r) eqn:?
           end; cbn [snd]; try lia; eauto.
  - destruct (rd dev _ 4) as [c|] eqn:Hc; cbn [default]; [|lia].
    by apply Hbytes in Hc.
Qed.

Lemma check_enumeration_status_widths_witness :
  0 ≤ st_vendor_id (result (check_enumeration_status enumerated_device) []) ≤ 65535
  ∧ 0 ≤ st_product_id (result (check_enumeration_status enumerated_device) []) ≤ 65535
  ∧ 0 ≤ st_error_code (result (check_enumeration_status enumerated_device) []) ≤ 255.
Proof.
  apply (check_enumeration_status_widths enumerated_device []).
  intros log reg v. unfold enumerated_device, rd.
  intros [= <-].
  repeat match goal with |- context [if ?c then _ else _] => destruct c end; lia.
Defined.

(** ** Waiting for the enumeration *)

Lemma total_delay_app (ops1 ops2 : list bus_op) :
  total_delay (ops1 ++ ops2) = total_delay ops1 + total_delay ops2.
Proof.
  induction ops1 as [|op ops1 IH]; simpl; [done|].
  destruct op; rewrite ?IH; lia.
Qed.

Lemma only_reads_delay (ops : list bus_op) :
  forallb is_read ops = true →
  total_delay ops = 0 ∧ forallb (λ op, negb (is_write op)) ops = true
  ∧ length (List.filter is_read ops) = length ops.
Proof.
  induction ops as [|op ops IH]; simpl; [done|].
  destruct op; simpl; try discriminate.
  intros Hall. destruct (IH Hall) as (-> & -> & ->). done.
Qed.

Lemma check_enumeration_status_ops (dev : device) (log : list bus_op) :
  ∃ ops, trace (check_enumeration_status dev) log = log ++ ops
         ∧ forallb is_read ops = true ∧ (length ops ≤ 9)%nat.
Proof.
  unfold trace. rewrite check_enumeration_status_run. cbn [snd].
  set (go := flag_of _ && negb (flag_of _)).
  exists (reads status_regs ++ (if go then reads identity_regs else [])
          ++ reads activity_regs).
  split; [by rewrite <- !app_assoc|].
  destruct go; split; simpl; (reflexivity || lia).
Qed.

Lemma rounds_ops_cons (c : status * list bus_op) (checks : list (status * list bus_op)) :
  rounds_ops (c :: checks) = Delay 100 :: snd c ++ rounds_ops checks.
Proof. reflexivity. Qed.

Lemma rounds_ops_totals (checks : list (status * list bus_op)) :
  Forall (λ c, forallb is_read (snd c) = true ∧ (length (snd c) ≤ 9)%nat) checks →
  forallb (λ op, negb (is_write op)) (rounds_ops checks) = true
  ∧ total_delay (rounds_ops checks) = 100 * Z.of_nat (length checks)
  ∧ (length (List.filter is_read (rounds_ops checks)) ≤ 9 * length checks)%nat.
Proof.
  induction 1 as [|c checks [Hreads Hlen] _ (IHw & IHd & IHr)]; [done|].
  destruct (only_reads_delay (snd c) Hreads) as (Hdelay & Hnowrite & Hcount).
  rewrite rounds_ops_cons. cbn [forallb is_write negb andb List.filter is_read].
  change (Delay 100 :: snd c ++ rounds_ops checks)
    with ([Delay 100] ++ snd c ++ rounds_ops checks).
  rewrite forallb_app, Hnowrite, IHw, !total_delay_app, Hdelay, IHd,
    List.filter_app, length_app, Hcount.
  change (total_delay [Delay 100]) with (100 + 0).
  cbn [length]. repeat split; lia.
Qed.

(** The loop, round by round. *)
Lemma wait_enumeration_rounds (dev : device) (rounds : nat) (log : list bus_op) :
  ∃ checks,
    trace (wait_enumeration dev rounds) log = log ++ rounds_ops checks
    ∧ (length checks ≤ rounds)%nat
    ∧ Forall (λ c, forallb is_read (snd c) = true ∧ (length (snd c) ≤ 9)%nat) checks
    ∧ (∀ i c, checks !! i = Some c →
         check_enumeration_status dev
           (log ++ rounds_ops (take i checks) ++ [Delay 100])
         = (fst c, (log ++ rounds_ops (take i checks) ++ [Delay 100]) ++ snd c)
         ∧ ((S i < length checks)%nat →
            st_done (fst c) = false ∧ st_error (fst c) = false))
    ∧ (result (wait_enumeration dev rounds) log = true ↔
       ∃ c, last checks = Some c
            ∧ (st_done (fst c) = true ∨ st_error (fst c) = true))
    ∧ (result (wait_enumeration dev rounds) log = false → length checks = rounds).
Proof.
  revert log. induction rounds as [|rounds IH]; intros log.
  - exists []. unfold trace, result. simpl. rewrite app_nil_r.
    repeat split; try done; try lia.
    intros (c & Hc & _). discriminate Hc.
  - unfold trace, result in *. cbn [wait_enumeration].
    unfold mbind, io_bind, sleep. cbv beta iota.
    destruct (check_enumeration_status_ops dev (log ++ [Delay 100]))
      as (ops_c & Htr_c & Hreads & Hlen_c).
    unfold trace in Htr_c.
    destruct (check_enumeration_status dev (log ++ [Delay 100]))
      as [st log_c] eqn:Hcheck.
    cbn [snd] in Htr_c. subst log_c.
    assert (Hfirst : ∀ rest : list (status * list bus_op),
      check_enumeration_status dev
        (log ++ rounds_ops (take 0 ((st, ops_c) :: rest)) ++ [Delay 100])
      = (st, (log ++ rounds_ops (take 0 ((st, ops_c) :: rest)) ++ [Delay 100])
             ++ ops_c)).
    { intros rest. cbn [take]. exact Hcheck. }
    assert (Hstop : st_done st = true ∨ st_error st = true →
      ∃ checks,
        (log ++ [Delay 100]) ++ ops_c = log ++ rounds_ops checks
        ∧ (length checks ≤ S rounds)%nat
        ∧ Forall (λ c, forallb is_read (snd c) = true ∧ (length (snd c) ≤ 9)%nat)
            checks
        ∧ (∀ i c, checks !! i = Some c →
             check_enumeration_status dev
               (log ++ rounds_ops (take i checks) ++ [Delay 100])
             = (fst c, (log ++ rounds_ops (take i checks) ++ [Delay 100]) ++ snd c)
             ∧ ((S i < length checks)%nat →
                st_done (fst c) = false ∧ st_error (fst c) = false))
        ∧ (true = true ↔
           ∃ c, last checks = Some c
                ∧ (st_done (fst c) = true ∨ st_error (fst c) = true))
        ∧ (true = false → length checks = S rounds)).
    { intros Hend. exists [(st, ops_c)].
      split; [rewrite rounds_ops_cons; cbn [snd rounds_ops map concat];
              by rewrite app_nil_r, <- app_assoc|].
      split; [simpl; lia|].
      split; [apply Forall_cons; split; [by split | apply Forall_nil_2]|].
      split; [|split; [|discriminate]].
      - intros [|i] c Hc; [|discriminate Hc]. injection Hc as <-.
        split; [exact (Hfirst [])|]. simpl. lia.
      - split; [|done]. intros _. exists (st, ops_c). by split. }
    destruct (st_done st) eqn:Hdone; [apply Hstop; by left|].
    destruct (st_error st) eqn:Herr; [apply Hstop; by right|].
    clear Hstop.
    destruct (IH ((log ++ [Delay 100]) ++ ops_c))
      as (checks & Htr & Hlen & Hall & Hidx & Hres & Hto).
    exists ((st, ops_c) :: checks).
    assert (Hshift : ∀ tail : list bus_op,
      ((log ++ [Delay 100]) ++ ops_c) ++ tail
      = log ++ (Delay 100 :: ops_c ++ tail)).
    { intros tail. by rewrite <- !app_assoc. }
    split; [rewrite Htr, rounds_ops_cons; apply Hshift|].
    split; [simpl; lia|].
    split; [apply Forall_cons; split; [by split | exact Hall]|].
    split; [|split].
    + intros [|i] c Hc.
      * injection Hc as <-. split; [exact (Hfirst checks)|].
        intros _. cbn [fst]. by rewrite Hdone, Herr.
      * cbn [lookup list_lookup] in Hc. destruct (Hidx i c Hc) as [Hrun Hmore].
        cbn [take]. rewrite rounds_ops_cons. cbn [snd].
        rewrite Hshift in Hrun.
        replace (log ++ (Delay 100 :: ops_c ++ rounds_ops (take i checks))
                     ++ [Delay 100])
          with (log ++ Delay 100 :: ops_c ++ rounds_ops (take i checks) ++ [Delay 100])
          by (cbn [app]; by rewrite <- !app_assoc).
        split; [exact Hrun|]. intros Hlt. apply Hmore. simpl in Hlt. lia.
    + rewrite Hres. destruct checks as [|c' checks'].
      * split; [intros (c & Hc & _); discriminate Hc|].
        intros (c & Hc & Hend). injection Hc as <-. cbn [fst] in Hend.
        rewrite Hdone, Herr in Hend. by destruct Hend.
      * change (last ((st, ops_c) :: c' :: checks')) with (last (c' :: checks')).
        reflexivity.
    + intros Hfalse. simpl. by rewrite (Hto Hfalse).
Qed.

(** X10. The wait loop of [main] proceeds round by round and is bounded.
    Every round sleeps 100 ms and only then makes one status check; all
    rounds but the last saw neither [done] nor [error]; the loop makes at
    most [rounds] rounds (50 in [main]) of at most nine reads each, never
    writes, and has waited exactly 100 ms per round, hence at most
    [100 * rounds] ms.  It leaves through a [break] exactly when the last
    check reported [done] or [error], and reports a timeout only after
    all [rounds] rounds. *)
Theorem wait_enumeration_bounded (dev : device) (rounds : nat) (log : list bus_op) :
  ∃ checks : list (status * list bus_op),
    trace (wait_enumeration dev rounds) log = log ++ rounds_ops checks
    ∧ (length checks ≤ rounds)%nat
    ∧ (∀ i c, checks !! i = Some c →
         check_enumeration_status dev
           (log ++ rounds_ops (take i checks) ++ [Delay 100])
         = (fst c, (log ++ rounds_ops (take i checks) ++ [Delay 100]) ++ snd c)
         ∧ ((S i < length checks)%nat →
            st_done (fst c) = false ∧ st_error (fst c) = false))
    ∧ (result (wait_enumeration dev rounds) log = true ↔
       ∃ c, last checks = Some c
            ∧ (st_done (fst c) = true ∨ st_error (fst c) = true))
    ∧ (result (wait_enumeration dev rounds) log = false → length checks = rounds)
    ∧ forallb (λ op, negb (is_write op)) (rounds_ops checks) = true
    ∧ total_delay (rounds_ops checks) = 100 * Z.of_nat (length checks)
    ∧ 0 ≤ total_delay (rounds_ops checks) ≤ 100 * Z.of_nat rounds
    ∧ (length (List.filter is_read (rounds_ops checks)) ≤ 9 * rounds)%nat.
Proof.
  destruct (wait_enumeration_rounds dev rounds log)
    as (checks & Htr & Hlen & Hall & Hidx & Hres & Hto).
  destruct (rounds_ops_totals checks Hall) as (Hnw & Hdelay & Hreads).
  exists checks. repeat (split; [assumption|]).
  split; [lia|]. nia.
Qed.

Lemma wait_enumeration_bounded_witness :
  ∃ checks, trace (wait_enumeration stalled_device 2) [] = rounds_ops checks
            ∧ length checks = 2%nat
            ∧ total_delay (rounds_ops checks) = 200.
Proof.
  destruct (wait_enumeration_bounded stalled_device 2 [])
    as (checks & Htr & _ & _ & _ & Htimeout & _ & Hdelay & _).
  exists checks. split; [exact Htr|].
  assert (Hlen : length checks = 2%nat) by (apply Htimeout; reflexivity).
  split; [exact Hlen|]. rewrite Hdelay, Hlen. reflexivity.
Defined.

(** ** Actions that leave the device untouched *)

Section ReadOnly.

Variable dev : device.
Variable P : bus_op → Prop.
Hypothesis P_read : ∀ reg, P (BusRead reg).
Hypothesis P_delay : ∀ ms, P (Delay ms).

Lemma extends_ret {A} (x : A) : extends_with P (mret x).
Proof. intros log. exists []. by rewrite app_nil_r. Qed.

Lemma extends_bind {A B} (m : io A) (f : A → io B) :
  extends_with P m → (∀ a, extends_with P (f a)) → extends_with P (m ≫= f).
Proof.
  intros Hm Hf log. unfold trace, mbind, io_bind.
  destruct (Hm log) as (ops1 & Htr1 & Hok1). unfold trace in Htr1.
  destruct (m log) as [a log1]. simpl in Htr1. subst log1.
  destruct (Hf a (log ++ ops1)) as (ops2 & Htr2 & Hok2).
  exists (ops1 ++ ops2). split.
  - unfold trace in Htr2. by rewrite Htr2, app_assoc.
  - by apply Forall_app.
Qed.

Lemma extends_sleep (ms : Z) : extends_with P (sleep ms).
Proof. intros log. exists [Delay ms]. split; [done|]. constructor; [apply P_delay | constructor]. Qed.

Lemma extends_read (reg : Z) : extends_with P (read_register dev reg).
Proof. intros log. exists [BusRead reg]. split; [done|]. constructor; [apply P_read | constructor]. Qed.

Ltac extend :=
  repeat first
    [ apply extends_ret | apply extends_sleep | apply extends_read
    | apply extends_bind; [|intros ?]
    | match goal with
      | |- extends_with _ (if ?c then _ else _) => destruct c
      | |- extends_with _ (match ?o with _ => _ end) => destruct o
      end ].

Lemma extends_check_enumeration_status :
  extends_with P (check_enumeration_status dev).
Proof. unfold check_enumeration_status. extend. Qed.

Lemma extends_read_keyboard_bytes (indices report : list Z) :
  extends_with P (read_keyboard_bytes dev indices report).
Proof.
  revert report. induction indices as [|i rest IH]; intros report; simpl.
  - apply extends_ret.
  - apply extends_bind; [apply extends_read|].
    intros [v|]; [apply IH | apply extends_ret].
Qed.

Lemma extends_read_mouse_report : extends_with P (read_mouse_report dev).
Proof. unfold read_mouse_report. extend. Qed.

Lemma extends_monitor_keyboard (polls : nat) :
  extends_with P (monitor_keyboard dev polls).
Proof.
  induction polls as [|polls IH]; simpl; [apply extends_ret|].
  apply extends_bind; [apply extends_read_keyboard_bytes|]. intros _.
  apply extends_bind; [apply extends_sleep|]. intros _. exact IH.
Qed.

Lemma extends_monitor_mouse (polls : nat) :
  extends_with P (monitor_mouse dev polls).
Proof.
  induction polls as [|polls IH]; simpl; [apply extends_ret|].
  apply extends_bind; [apply extends_read_mouse_report|]. intros _.
  apply extends_bind; [apply extends_sleep|]. intros _. exact IH.
Qed.

Lemma extends_main_passive (status monitor : bool) (polls : nat) :
  extends_with P (main dev (Args false false false status monitor) polls).
Proof.
  unfold main, print_status, when. cbn [arg_enable arg_disable arg_enumerate
    arg_status arg_monitor].
  repeat first
    [ apply extends_check_enumeration_status
    | apply extends_monitor_keyboard | apply extends_monitor_mouse
    | apply extends_ret
    | apply extends_bind; [|intros ?]
    | match goal with
      | |- extends_with _ (if ?c then _ else _) => destruct c
      end ].
Qed.

End ReadOnly.

(** X11. Without [--enable], [--disable] and [--enumerate] the script is
    an observer: [--status] and [--monitor], alone or together and for
    any number of monitor polls, never write a register. *)
Theorem main_passive_never_writes (dev : device) (a : args) (polls : nat)
    (reg value : Z) :
  arg_enable a = false → arg_disable a = false → arg_enumerate a = false →
  BusWrite reg value ∉ trace (main dev a polls) [].
Proof.
  intros He Hd Hn Hin. destruct a as [e d n st mo]. simpl in He, Hd, Hn. subst.
  destruct (extends_main_passive dev (λ op, is_write op = false)
              (λ _, eq_refl) (λ _, eq_refl) st mo polls [])
    as (ops & Htr & Hok).
  rewrite Htr, app_nil_l in Hin.
  rewrite Forall_forall in Hok. specialize (Hok _ Hin). discriminate.
Qed.

Lemma main_passive_never_writes_witness :
  BusWrite 0x00 1 ∉ trace (main enumerated_device (Args false false false true true) 3) [].
Proof.
  apply (main_passive_never_writes enumerated_device
           (Args false false false true true) 3 0x00 1); reflexivity.
Defined.

(** ** Renderings that lose nothing *)

Lemma two_digit_hex_value (b : Z) :
  0 ≤ b < 256 →
  16 * hex_digit_value (spec_hex_digit (b / 16))
  + hex_digit_value (spec_hex_digit (b mod 16)) = b.
Proof.
  intros Hb. apply Z.eqb_eq.
  apply (byte_cases
           (λ b, 16 * hex_digit_value (spec_hex_digit (b / 16))
                 + hex_digit_value (spec_hex_digit (b mod 16)) =? b));
    [vm_compute; reflexivity | exact Hb].
Qed.

Lemma two_digit_hex_head (b : Z) :
  0 ≤ b < 256 →
  ∀ c1 c2, spec_two_digit_hex b = String c1 (String c2 EmptyString) →
           16 * hex_digit_value c1 + hex_digit_value c2 = b.
Proof.
  intros Hb c1 c2 [= <- <-]. by apply two_digit_hex_value.
Qed.

Lemma string_app_cons (c : ascii) (s t : string) :
  String c s +:+ t = String c (s +:+ t).
Proof. reflexivity. Qed.

Lemma string_app_empty_l (t : string) : EmptyString +:+ t = t.
Proof. reflexivity. Qed.

Lemma string_app_empty_r (s : string) : s +:+ EmptyString = s.
Proof.
  induction s as [|c s IH]; [done|].
  change (String c (s +:+ EmptyString) = String c s). by rewrite IH.
Qed.

Lemma join_empty_cons (p : string) (rest : list string) :
  PyFormat.join EmptyString (p :: rest) = p +:+ PyFormat.join EmptyString rest.
Proof.
  destruct rest as [|q rest]; [|reflexivity].
  cbn [PyFormat.join]. symmetry. apply string_app_empty_r.
Qed.

Lemma bytes_hex_parse (report : list Z) :
  Forall (λ b, 0 ≤ b ≤ 255) report →
  parse_hex_pairs (bytes_hex report) = report
  ∧ String.length (bytes_hex report) = (2 * length report)%nat.
Proof.
  unfold bytes_hex. induction 1 as [|b report Hb _ [IHp IHl]]; [done|].
  cbn [map]. rewrite join_empty_cons, format_02x_byte by lia.
  assert (Hhead := two_digit_hex_head b ltac:(lia)).
  unfold spec_two_digit_hex in *.
  rewrite !string_app_cons, string_app_empty_l.
  cbn [parse_hex_pairs String.length].
  rewrite IHp, IHl, (Hhead _ _ eq_refl). split; [done | simpl; lia].
Qed.

Lemma hex_str_parse (descriptor_bytes : list Z) :
  Forall (λ b, 0 ≤ b ≤ 255) descriptor_bytes →
  parse_hex_groups (DescriptorTester.hex_str descriptor_bytes) = descriptor_bytes.
Proof.
  unfold DescriptorTester.hex_str.
  induction 1 as [|b rest Hb Hrest IH]; [done|].
  assert (Hhead := two_digit_hex_head b ltac:(lia)).
  cbn [map]. rewrite format_02x_byte by lia.
  destruct rest as [|b' rest'].
  - unfold spec_two_digit_hex in *. cbn [PyFormat.join map parse_hex_groups].
    by rewrite (Hhead _ _ eq_refl).
  - change (PyFormat.join "," (spec_two_digit_hex b :: map PyFormat.format_02x (b' :: rest')))
      with (spec_two_digit_hex b +:+ "," +:+
            PyFormat.join "," (map PyFormat.format_02x (b' :: rest'))).
    unfold spec_two_digit_hex in *.
    rewrite !string_app_cons, !string_app_empty_l.
    cbn [parse_hex_groups].
    by rewrite IH, (Hhead _ _ eq_refl).
Qed.

(** X12. The ['raw'] entry of a decoded report loses nothing: for 8-byte
    reports it has 16 characters, and two reports with the same ['raw']
    text are the same report. *)
Theorem decode_raw_lossless (report1 report2 : list Z) :
  length report1 = 8%nat → length report2 = 8%nat →
  Forall (λ b, 0 ≤ b ≤ 255) report1 → Forall (λ b, 0 ≤ b ≤ 255) report2 →
  (∃ raw, decode_keyboard_report report1 !! "raw" = Some (PyStr raw)
          ∧ String.length raw = 16%nat)
  ∧ (decode_keyboard_report report1 !! "raw"
     = decode_keyboard_report report2 !! "raw" → report1 = report2).
Proof.
  intros Hl1 Hl2 Hb1 Hb2.
  rewrite (decode_keyboard_report_fields report1 Hl1).
  rewrite (decode_keyboard_report_fields report2 Hl2).
  rewrite !lookup_insert_eq.
  destruct (bytes_hex_parse report1 Hb1) as [Hp1 Hlen1].
  destruct (bytes_hex_parse report2 Hb2) as [Hp2 _].
  split.
  - eexists. split; [reflexivity|]. rewrite Hlen1, Hl1. reflexivity.
  - intros [= Heq]. rewrite <- Hp1, <- Hp2, Heq. reflexivity.
Qed.

Lemma decode_raw_lossless_witness :
  ∃ raw, decode_keyboard_report [0x03; 0; 0x04; 0; 0x39; 0x50; 0; 0] !! "raw"
         = Some (PyStr raw)
         ∧ String.length raw = 16%nat.
Proof.
  apply (decode_raw_lossless [0x03; 0; 0x04; 0; 0x39; 0x50; 0; 0]
           [0x03; 0; 0x04; 0; 0x39; 0x50; 0; 0]);
    try reflexivity; repeat constructor; lia.
Defined.

(** X13. The payload of [descriptor.add] loses nothing: two lists of
    bytes with the same payload text are the same list, so the device
    can recover the descriptor from the command. *)
Theorem hex_str_injective (bytes1 bytes2 : list Z) :
  Forall (λ b, 0 ≤ b ≤ 255) bytes1 → Forall (λ b, 0 ≤ b ≤ 255) bytes2 →
  DescriptorTester.hex_str bytes1 = DescriptorTester.hex_str bytes2 →
  bytes1 = bytes2.
Proof.
  intros Hb1 Hb2 Heq.
  rewrite <- (hex_str_parse bytes1 Hb1), <- (hex_str_parse bytes2 Hb2), Heq.
  reflexivity.
Qed.

Lemma hex_str_injective_witness :
  DescriptorTester.MOUSE_DESCRIPTOR_head = [0x05; 0x01; 0x09; 0x02].
Proof.
  apply (hex_str_injective DescriptorTester.MOUSE_DESCRIPTOR_head
           [0x05; 0x01; 0x09; 0x02]);
    [repeat constructor; lia | repeat constructor; lia | reflexivity].
Defined.

(** X14. Different keycodes are shown under different names: on bytes,
    the name the decoder gives a keycode (from the table, or [KEY_xx])
    determines the keycode. *)
Theorem key_name_injective (b1 b2 : Z) :
  0 ≤ b1 ≤ 255 → 0 ≤ b2 ≤ 255 → key_name b1 = key_name b2 → b1 = b2.
Proof.
  intros H1 H2 Heq.
  assert (Hnd : NoDup (map key_name all_bytes)).
  { apply (bool_decide_unpack _). vm_compute. reflexivity. }
  assert (Hin : ∀ b, 0 ≤ b ≤ 255 → all_bytes !! Z.to_nat b = Some b).
  { intros b Hb. unfold all_bytes.
    rewrite list_lookup_fmap, lookup_seq_lt by lia. simpl. f_equal. lia. }
  assert (Hidx : Z.to_nat b1 = Z.to_nat b2).
  { eapply (NoDup_lookup _ _ _ (key_name b1) Hnd).
    - rewrite list_lookup_fmap, (Hin b1 H1). reflexivity.
    - rewrite list_lookup_fmap, (Hin b2 H2). simpl. by rewrite Heq. }
  lia.
Qed.

Lemma key_name_injective_witness : 0x04 = 0x04.
Proof.
  apply (key_name_injective 0x04 0x04); [lia | lia | reflexivity].
Defined.

(** ** Values that are not bytes *)

Lemma digits_nonempty (base : Z) (fuel : nat) (n : Z) :
  (1 ≤ String.length (PyFormat.digits base (S fuel) n))%nat.
Proof.
  cbn [PyFormat.digits]. destruct (n <? base); [simpl; lia|].
  rewrite string_length_app. simpl. lia.
Qed.

Lemma digits_three (fuel : nat) (n : Z) :
  256 ≤ n →
  (3 ≤ String.length (PyFormat.digits 16 (S (S (S fuel))) n))%nat.
Proof.
  intros Hn. cbn [PyFormat.digits].
  destruct (Z.ltb_spec n 16) as [?|_]; [lia|].
  assert (16 ≤ n / 16) by (apply Z.div_le_lower_bound; lia).
  destruct (Z.ltb_spec (n / 16) 16) as [?|_]; [lia|].
  rewrite !string_length_app.
  assert (Hlast := digits_nonempty 16 fuel (n / 16 / 16)).
  cbn [PyFormat.digits] in Hlast. simpl String.length. lia.
Qed.

(** A value above 255 is rendered with three or more digits and a
    negative value with a leading minus sign. *)
Lemma format_02x_wide (b : Z) :
  (256 ≤ b → (3 ≤ String.length (PyFormat.format_02x b))%nat)
  ∧ (b < 0 → ∃ rest, PyFormat.format_02x b = String "-" rest).
Proof.
  unfold PyFormat.format_02x. split.
  - intros Hb. destruct (Z.ltb_spec b 0) as [?|_]; [lia|].
    unfold PyFormat.zfill. rewrite string_length_app.
    unfold PyFormat.digits_of.
    assert (Hlog : 8 ≤ Z.log2 b).
    { apply Z.log2_le_pow2; [lia|]. simpl. lia. }
    assert (Hfuel : ∃ fuel, Z.to_nat (Z.log2 b) = S (S fuel)).
    { exists (Z.to_nat (Z.log2 b) - 2)%nat. lia. }
    destruct Hfuel as [fuel ->].
    assert (Hlen := digits_three fuel b Hb). lia.
  - intros Hb. destruct (Z.ltb_spec b 0) as [_|?]; [|lia].
    eexists. reflexivity.
Qed.

(** * The injector *)

(** ** Strings of digits *)

Lemma string_app_assoc (a b c : string) : (a +:+ b) +:+ c = a +:+ (b +:+ c).
Proof.
  induction a as [|x a IH]; [done|].
  rewrite !string_app_cons. by rewrite IH.
Qed.

Lemma chars_all_app (f : ascii → bool) (a b : string) :
  chars_all f (a +:+ b) = chars_all f a && chars_all f b.
Proof.
  induction a as [|x a IH]; [done|].
  rewrite string_app_cons. cbn [chars_all]. by rewrite IH, andb_assoc.
Qed.

Lemma chars_all_impl (f g : ascii → bool) (s : string) :
  (∀ c, f c = true → g c = true) → chars_all f s = true → chars_all g s = true.
Proof.
  intros Hfg. induction s as [|c s IH]; [done|]. cbn [chars_all].
  intros [Hc Hs]%andb_true_iff. by rewrite (Hfg c Hc), IH.
Qed.

Lemma all_ascii_chars (s : string) :
  CynthionInjector.all_ascii s = chars_all CynthionInjector.is_ascii s.
Proof. induction s as [|c s IH]; [done|]. simpl. by rewrite IH. Qed.

Lemma count_absent (c : ascii) (s : string) :
  chars_all (λ a, negb (Ascii.eqb a c)) s = true → PyFormat.count c s = 0%nat.
Proof.
  induction s as [|a s IH]; [done|]. cbn [chars_all PyFormat.count].
  intros [Ha Hs]%andb_true_iff. rewrite (IH Hs).
  apply negb_true_iff in Ha. by rewrite Ha.
Qed.

Lemma decimal_digit_char (d : Z) :
  0 ≤ d < 10 →
  decimal_char (PyFormat.digit_char d) = true
  ∧ Z.of_nat (nat_of_ascii (PyFormat.digit_char d)) - 48 = d.
Proof.
  intros Hd.
  assert (Hcases : d = 0 ∨ d = 1 ∨ d = 2 ∨ d = 3 ∨ d = 4 ∨ d = 5 ∨ d = 6
                   ∨ d = 7 ∨ d = 8 ∨ d = 9) by lia.
  repeat (destruct Hcases as [->|Hcases]; [by vm_compute|]).
  subst d. by vm_compute.
Qed.

Lemma digits_decimal (fuel : nat) (n : Z) :
  0 ≤ n → chars_all decimal_char (PyFormat.digits 10 fuel n) = true.
Proof.
  revert n. induction fuel as [|fuel IH]; intros n Hn; [done|].
  cbn [PyFormat.digits]. destruct (Z.ltb_spec n 10) as [Hlt|Hge].
  - cbn [chars_all]. by rewrite (proj1 (decimal_digit_char n ltac:(lia))).
  - rewrite chars_all_app, IH by (apply Z.div_pos; lia).
    cbn [chars_all].
    rewrite (proj1 (decimal_digit_char (n mod 10)
                      ltac:(apply Z.mod_pos_bound; lia))).
    reflexivity.
Qed.

Lemma str_decimal (n : Z) : chars_all decimal_char (PyFormat.str n) = true.
Proof.
  unfold PyFormat.str, PyFormat.digits_of.
  destruct (Z.ltb_spec n 0).
  - rewrite string_app_cons, string_app_empty_l. cbn [chars_all].
    rewrite digits_decimal by lia. reflexivity.
  - apply digits_decimal. lia.
Qed.

Lemma decimal_char_ascii (c : ascii) :
  decimal_char c = true → CynthionInjector.is_ascii c = true.
Proof.
  unfold decimal_char, CynthionInjector.is_ascii. intros Hc.
  apply Nat.ltb_lt.
  apply orb_true_iff in Hc as [Hc|Hc].
  - apply Nat.eqb_eq in Hc. lia.
  - apply andb_true_iff in Hc as [_ Hc]. apply Nat.leb_le in Hc. lia.
Qed.

Lemma decimal_char_not (c x : ascii) :
  decimal_char x = false → decimal_char c = true → negb (Ascii.eqb c x) = true.
Proof.
  intros Hx Hc. apply negb_true_iff. destruct (Ascii.eqb_spec c x); [|done].
  congruence.
Qed.

Lemma str_ascii (n : Z) : CynthionInjector.all_ascii (PyFormat.str n) = true.
Proof.
  rewrite all_ascii_chars.
  apply (chars_all_impl decimal_char); [apply decimal_char_ascii | apply str_decimal].
Qed.

Lemma all_ascii_app (a b : string) :
  CynthionInjector.all_ascii (a +:+ b)
  = CynthionInjector.all_ascii a && CynthionInjector.all_ascii b.
Proof. rewrite !all_ascii_chars. apply chars_all_app. Qed.

(** ** Running the methods *)

Section InjectorRuns.

Import CynthionInjector.

Variable p : port.

Lemma bind_returned {A B} (m : act A) (f : A → act B) st log a st' log' :
  m st log = (Returned a, st', log') → (m ≫= f) st log = f a st' log'.
Proof. intros Hm. unfold mbind, act_bind. by rewrite Hm. Qed.

Lemma bind_raised {A B} (m : act A) (f : A → act B) st log st' log' :
  m st log = (Raised, st', log') → (m ≫= f) st log = (Raised, st', log').
Proof. intros Hm. unfold mbind, act_bind. by rewrite Hm. Qed.

Lemma move_cmd_ascii (x y : Z) : all_ascii (move_cmd x y) = true.
Proof.
  unfold move_cmd. rewrite !all_ascii_app, !str_ascii. reflexivity.
Qed.

Lemma moveto_cmd_ascii (x y : Z) : all_ascii (moveto_cmd x y) = true.
Proof.
  unfold moveto_cmd. rewrite !all_ascii_app, !str_ascii. reflexivity.
Qed.

Lemma move_run (x y : Z) (st : injector) (log : list ser_op) :
  move p x y st log
  = if tx_ok p log (move_cmd x y)
    then (Returned tt, Injector (mouse_x st + x) (mouse_y st + y),
          log ++ [SerWrite (move_cmd x y); SerSleep 10])
    else (Raised, st, log ++ [SerWrite (move_cmd x y)]).
Proof.
  unfold move, write_cmd. rewrite move_cmd_ascii.
  unfold mbind, act_bind, ser_write, get_position, set_position, sleep.
  destruct (tx_ok p log (move_cmd x y)); [|reflexivity].
  cbn [fst snd]. by rewrite <- app_assoc.
Qed.

Lemma moveto_run (x y : Z) (st : injector) (log : list ser_op) :
  moveto p x y st log
  = if tx_ok p log (moveto_cmd x y)
    then (Returned tt, Injector x y,
          log ++ [SerWrite (moveto_cmd x y); SerSleep 10])
    else (Raised, st, log ++ [SerWrite (moveto_cmd x y)]).
Proof.
  unfold moveto, write_cmd. rewrite moveto_cmd_ascii.
  unfold mbind, act_bind, ser_write, set_position, sleep.
  destruct (tx_ok p log (moveto_cmd x y)); [|reflexivity].
  by rewrite <- app_assoc.
Qed.

Lemma moves_run (Hok : ∀ log' data, tx_ok p log' data = true)
    (steps : list (Z * Z)) (st : injector) (log : list ser_op) :
  moves p steps st log
  = (Returned tt,
     Injector (mouse_x st + foldr Z.add 0 (steps.*1))
              (mouse_y st + foldr Z.add 0 (steps.*2)),
     log ++ concat (map (λ d, [SerWrite (move_cmd (fst d) (snd d)); SerSleep 10])
                        steps)).
Proof.
  revert st log. induction steps as [|[dx dy] steps IH]; intros st log.
  - simpl. rewrite !Z.add_0_r, app_nil_r. by destruct st.
  - cbn [moves].
    rewrite (bind_returned _ _ st log tt
               (Injector (mouse_x st + dx) (mouse_y st + dy))
               (log ++ [SerWrite (move_cmd dx dy); SerSleep 10]))
      by (rewrite move_run, Hok; reflexivity).
    rewrite IH. cbn [fmap list_fmap foldr map concat fst snd mouse_x mouse_y].
    rewrite <- app_assoc. do 2 f_equal. f_equal; lia.
Qed.

End InjectorRuns.

(** X16. The injector's own position follows the commands it sends.  When
    the port accepts every write, [moveto(x, y)] followed by any run of
    [move] calls leaves the tracked position at [x] plus the sum of the
    [dx] and [y] plus the sum of the [dy], without any clamping, and one
    [nozen.move] line is written per call, in order. *)
Theorem moves_track_position (p : CynthionInjector.port)
    (x y : Z) (steps : list (Z * Z))
    (st : CynthionInjector.injector) (log : list CynthionInjector.ser_op) :
  (∀ log' data, CynthionInjector.tx_ok p log' data = true) →
  let run := (CynthionInjector.moveto p x y
                ≫= λ _, CynthionInjector.moves p steps) st log in
  CynthionInjector.outcome_of run = CynthionInjector.Returned tt
  ∧ CynthionInjector.mouse_x (CynthionInjector.injector_of run)
    = x + foldr Z.add 0 (steps.*1)
  ∧ CynthionInjector.mouse_y (CynthionInjector.injector_of run)
    = y + foldr Z.add 0 (steps.*2)
  ∧ CynthionInjector.log_of run
    = log ++ [CynthionInjector.SerWrite (CynthionInjector.moveto_cmd x y);
              CynthionInjector.SerSleep 10]
          ++ concat (map (λ d, [CynthionInjector.SerWrite
                                  (CynthionInjector.move_cmd (fst d) (snd d));
                                CynthionInjector.SerSleep 10]) steps).
Proof.
  intros Hok run. subst run.
  rewrite (bind_returned _ _ st log tt (CynthionInjector.Injector x y)
             (log ++ [CynthionInjector.SerWrite (CynthionInjector.moveto_cmd x y);
                      CynthionInjector.SerSleep 10]))
    by (rewrite moveto_run, Hok; reflexivity).
  rewrite (moves_run p Hok). cbn [CynthionInjector.outcome_of
    CynthionInjector.injector_of CynthionInjector.log_of fst snd
    CynthionInjector.mouse_x CynthionInjector.mouse_y].
  repeat split. by rewrite <- app_assoc.
Qed.

Lemma moves_track_position_witness :
  CynthionInjector.mouse_x
    (CynthionInjector.injector_of
       ((CynthionInjector.moveto CynthionInjector.silent_port 100 200
           ≫= λ _, CynthionInjector.moves CynthionInjector.silent_port
                      [(10, -5); (32767, 1)])
          (CynthionInjector.Injector 0 0) []))
  = 32877.
Proof.
  destruct (moves_track_position CynthionInjector.silent_port 100 200
              [(10, -5); (32767, 1)] (CynthionInjector.Injector 0 0) [])
    as (_ & Hx & _); [reflexivity|].
  exact Hx.
Defined.

(** X17. The tracked position changes only after the command went out:
    when the port refuses the write, [move] and [moveto] let the
    exception escape, the position is what it was, and nothing is done
    after the failed write. *)
Theorem move_failure_keeps_position (p : CynthionInjector.port) (x y : Z)
    (st : CynthionInjector.injector) (log : list CynthionInjector.ser_op) :
  (∀ data, CynthionInjector.tx_ok p log data = false) →
  CynthionInjector.move p x y st log
  = (CynthionInjector.Raised, st,
     log ++ [CynthionInjector.SerWrite (CynthionInjector.move_cmd x y)])
  ∧ CynthionInjector.moveto p x y st log
  = (CynthionInjector.Raised, st,
     log ++ [CynthionInjector.SerWrite (CynthionInjector.moveto_cmd x y)]).
Proof.
  intros Hfail. by rewrite move_run, moveto_run, !Hfail.
Qed.

Lemma move_failure_keeps_position_witness :
  CynthionInjector.move CynthionInjector.broken_port 10 (-5)
    (CynthionInjector.Injector 3 4) []
  = (CynthionInjector.Raised, CynthionInjector.Injector 3 4,
     [CynthionInjector.SerWrite (CynthionInjector.move_cmd 10 (-5))]).
Proof.
  apply (move_failure_keeps_position CynthionInjector.broken_port 10 (-5)
           (CynthionInjector.Injector 3 4) []).
  reflexivity.
Defined.

(** ** What the injector writes *)

Section InjectorLines.

Import CynthionInjector.

Variable p : port.

Lemma nozen_ret {A} (x : A) : writes_nozen_lines (mret x : act A).
Proof. intros st log data Hin. by left. Qed.

Lemma nozen_raise {A} : writes_nozen_lines (raise : act A).
Proof. intros st log data Hin. by left. Qed.

Lemma nozen_bind {A B} (m : act A) (f : A → act B) :
  writes_nozen_lines m → (∀ a, writes_nozen_lines (f a)) →
  writes_nozen_lines (m ≫= f).
Proof.
  intros Hm Hf st log data. unfold mbind, act_bind.
  specialize (Hm st log data).
  destruct (m st log) as [[[a|] st'] log'] eqn:Hrun; cbn [log_of snd] in *.
  - intros Hin. destruct (Hf a st' log' data Hin) as [Hold|Hnew]; auto.
  - exact Hm.
Qed.

Lemma nozen_quiet {A} (m : act A) (op : ser_op) :
  (∀ data, op ≠ SerWrite data) →
  (∀ st log, log_of (m st log) = log ++ [op]) →
  writes_nozen_lines m.
Proof.
  intros Hop Hlog st log data. rewrite Hlog, elem_of_app, list_elem_of_singleton.
  intros [Hin|Heq]; [by left|]. by destruct (Hop data).
Qed.

Lemma nozen_sleep (ms : Z) : writes_nozen_lines (sleep ms).
Proof. by apply (nozen_quiet _ (SerSleep ms)). Qed.

Lemma nozen_in_waiting : writes_nozen_lines (in_waiting p).
Proof. by apply (nozen_quiet _ SerWaiting). Qed.

Lemma nozen_read_response : writes_nozen_lines (read_response p).
Proof. by apply (nozen_quiet _ SerReadline). Qed.

Lemma nozen_ser_write (data : string) :
  nozen_line data → writes_nozen_lines (ser_write p data).
Proof.
  intros Hline st log data'. unfold ser_write. cbn [log_of snd].
  rewrite elem_of_app, list_elem_of_singleton.
  intros [Hin|[= ->]]; [by left | by right].
Qed.

Lemma nozen_write_cmd (body : string) :
  String.prefix "nozen." (body +:+ nl) = true →
  writes_nozen_lines (write_cmd p (body +:+ nl)).
Proof.
  intros Hprefix. unfold write_cmd.
  destruct (all_ascii (body +:+ nl)) eqn:Hascii; [|apply nozen_raise].
  apply nozen_ser_write. split; [exact Hascii|]. split; [exact Hprefix|].
  by exists body.
Qed.

Lemma nozen_button_line (line : string) :
  all_ascii (line +:+ nl) = true →
  String.prefix "nozen." (line +:+ nl) = true →
  writes_nozen_lines (button_line p line).
Proof.
  intros Hascii Hprefix. unfold button_line.
  apply nozen_bind; [|intros _; apply nozen_sleep].
  apply nozen_ser_write. split; [exact Hascii|]. split; [exact Hprefix|].
  by exists line.
Qed.

Lemma nozen_response_if_waiting : writes_nozen_lines (response_if_waiting p).
Proof.
  unfold response_if_waiting. apply nozen_bind; [apply nozen_in_waiting|].
  intros n. destruct (nonzero n); [|apply nozen_ret].
  apply nozen_bind; [apply nozen_read_response | intros r; apply nozen_ret].
Qed.

Lemma nozen_drain (rounds : nat) : writes_nozen_lines (drain p rounds).
Proof.
  induction rounds as [|rounds IH]; cbn [drain]; [apply nozen_ret|].
  apply nozen_bind; [apply nozen_in_waiting|].
  intros n. destruct (nonzero n); [|apply nozen_ret].
  apply nozen_bind; [apply nozen_read_response | intros _; exact IH].
Qed.

Lemma nozen_command {A} (body : string) (k : act A) :
  String.prefix "nozen." (body +:+ nl) = true →
  writes_nozen_lines k →
  writes_nozen_lines (write_cmd p (body +:+ nl) ≫= λ _, k).
Proof.
  intros Hprefix Hk. apply nozen_bind; [by apply nozen_write_cmd | by intros _].
Qed.

End InjectorLines.

(** The shape of every write of every method. *)
Lemma injector_line_shapes (p : CynthionInjector.port) :
  (∀ x y, CynthionInjector.writes_nozen_lines (CynthionInjector.move p x y))
  ∧ (∀ x y, CynthionInjector.writes_nozen_lines (CynthionInjector.moveto p x y))
  ∧ CynthionInjector.writes_nozen_lines (CynthionInjector.get_pos p)
  ∧ CynthionInjector.writes_nozen_lines (CynthionInjector.left_press p)
  ∧ CynthionInjector.writes_nozen_lines (CynthionInjector.left_release p)
  ∧ CynthionInjector.writes_nozen_lines (CynthionInjector.right_press p)
  ∧ CynthionInjector.writes_nozen_lines (CynthionInjector.right_release p)
  ∧ CynthionInjector.writes_nozen_lines (CynthionInjector.middle_press p)
  ∧ CynthionInjector.writes_nozen_lines (CynthionInjector.middle_release p)
  ∧ CynthionInjector.writes_nozen_lines (CynthionInjector.side1_press p)
  ∧ CynthionInjector.writes_nozen_lines (CynthionInjector.side1_release p)
  ∧ CynthionInjector.writes_nozen_lines (CynthionInjector.side2_press p)
  ∧ CynthionInjector.writes_nozen_lines (CynthionInjector.side2_release p)
  ∧ (∀ n, CynthionInjector.writes_nozen_lines (CynthionInjector.wheel p n))
  ∧ CynthionInjector.writes_nozen_lines (CynthionInjector.left_click p)
  ∧ CynthionInjector.writes_nozen_lines (CynthionInjector.right_click p)
  ∧ CynthionInjector.writes_nozen_lines (CynthionInjector.middle_click p)
  ∧ (∀ name pattern,
       CynthionInjector.writes_nozen_lines (CynthionInjector.recoil_add p name pattern))
  ∧ (∀ name,
       CynthionInjector.writes_nozen_lines (CynthionInjector.recoil_delete p name))
  ∧ (∀ rounds,
       CynthionInjector.writes_nozen_lines (CynthionInjector.recoil_list p rounds))
  ∧ (∀ name,
       CynthionInjector.writes_nozen_lines (CynthionInjector.recoil_get p name))
  ∧ (∀ rounds,
       CynthionInjector.writes_nozen_lines (CynthionInjector.recoil_names p rounds))
  ∧ (∀ message,
       CynthionInjector.writes_nozen_lines (CynthionInjector.print_message p message))
  ∧ CynthionInjector.writes_nozen_lines (CynthionInjector.restart p).
Proof.
  assert (Hbutton : ∀ line,
            CynthionInjector.all_ascii (line +:+ CynthionInjector.nl) = true →
            String.prefix "nozen." (line +:+ CynthionInjector.nl) = true →
            CynthionInjector.writes_nozen_lines (CynthionInjector.button_line p line))
    by apply nozen_button_line.
  assert (Hclick : ∀ press release : CynthionInjector.act unit,
            CynthionInjector.writes_nozen_lines press →
            CynthionInjector.writes_nozen_lines release →
            CynthionInjector.writes_nozen_lines
              (press ≫= λ _, CynthionInjector.sleep 50 ≫= λ _, release)).
  { intros press release Hp Hr. apply nozen_bind; [exact Hp|]. intros _.
    apply nozen_bind; [apply nozen_sleep | intros _; exact Hr]. }
  repeat split; intros;
    try (apply Hbutton; reflexivity);
    try (apply Hclick; apply Hbutton; reflexivity).
  - unfold CynthionInjector.move, CynthionInjector.move_cmd.
    rewrite <- !string_app_assoc. apply nozen_command; [reflexivity|].
    apply nozen_bind; [intros ? ? ? ?; by left | intros ?].
    apply nozen_bind; [intros ? ? ? ?; by left | intros ?]. apply nozen_sleep.
  - unfold CynthionInjector.moveto, CynthionInjector.moveto_cmd.
    rewrite <- !string_app_assoc. apply nozen_command; [reflexivity|].
    apply nozen_bind; [intros ? ? ? ?; by left | intros ?]. apply nozen_sleep.
  - unfold CynthionInjector.get_pos, CynthionInjector.getpos_cmd.
    apply nozen_command; [reflexivity|].
    apply nozen_bind; [apply nozen_sleep | intros ?; apply nozen_response_if_waiting].
  - unfold CynthionInjector.wheel, CynthionInjector.wheel_cmd.
    rewrite <- !string_app_assoc. apply nozen_command; [reflexivity|].
    apply nozen_sleep.
  - unfold CynthionInjector.recoil_add, CynthionInjector.recoil_add_cmd.
    rewrite <- !string_app_assoc. apply nozen_command; [reflexivity|].
    apply nozen_bind; [apply nozen_sleep | intros ?].
    apply nozen_bind; [apply nozen_response_if_waiting | intros ?; apply nozen_ret].
  - unfold CynthionInjector.recoil_delete, CynthionInjector.recoil_delete_cmd.
    rewrite <- !string_app_assoc. apply nozen_command; [reflexivity|].
    apply nozen_bind; [apply nozen_sleep | intros ?].
    apply nozen_bind; [apply nozen_response_if_waiting | intros ?; apply nozen_ret].
  - unfold CynthionInjector.recoil_list.
    apply nozen_command; [reflexivity|].
    apply nozen_bind; [apply nozen_sleep | intros ?; apply nozen_drain].
  - unfold CynthionInjector.recoil_get, CynthionInjector.recoil_get_cmd.
    rewrite <- !string_app_assoc. apply nozen_command; [reflexivity|].
    apply nozen_bind; [apply nozen_sleep | intros ?].
    apply nozen_bind; [apply nozen_response_if_waiting | intros ?; apply nozen_ret].
  - unfold CynthionInjector.recoil_names.
    apply nozen_command; [reflexivity|].
    apply nozen_bind; [apply nozen_sleep | intros ?; apply nozen_drain].
  - unfold CynthionInjector.print_message, CynthionInjector.print_cmd.
    rewrite <- !string_app_assoc. apply nozen_command; [reflexivity|].
    apply nozen_bind; [apply nozen_sleep | intros ?].
    apply nozen_bind; [apply nozen_response_if_waiting | intros ?; apply nozen_ret].
  - unfold CynthionInjector.restart.
    apply nozen_command; [reflexivity|].
    apply nozen_bind; [apply nozen_sleep | intros ?].
    apply nozen_bind; [apply nozen_response_if_waiting | intros ?; apply nozen_ret].
Qed.

Lemma text_command_run (p : CynthionInjector.port) (ms : Z) (text cmd : string) :
  CynthionInjector.all_ascii cmd = CynthionInjector.all_ascii text →
  CynthionInjector.sends_or_raises
    (CynthionInjector.write_cmd p cmd
       ≫= λ _, CynthionInjector.sleep ms
       ≫= λ _, CynthionInjector.response_if_waiting p
       ≫= λ _, mret tt)
    text cmd.
Proof.
  intros Hcmd st log. rewrite <- Hcmd.
  unfold CynthionInjector.write_cmd, CynthionInjector.response_if_waiting,
    mbind, CynthionInjector.act_bind, CynthionInjector.raise,
    CynthionInjector.ser_write, CynthionInjector.sleep,
    CynthionInjector.in_waiting, CynthionInjector.read_response, mret,
    CynthionInjector.act_ret.
  destruct (CynthionInjector.all_ascii cmd); split; try discriminate.
  - intros _. cbv beta iota.
    destruct (CynthionInjector.tx_ok p log cmd); cbv beta iota;
      [|by exists []].
    destruct (nonzero _); cbv beta iota; cbn [CynthionInjector.log_of snd];
      rewrite <- !app_assoc; cbn [app]; eauto.
  - reflexivity.
Qed.

Lemma pattern_str_ascii (pattern : list Z) :
  CynthionInjector.all_ascii (CynthionInjector.pattern_str pattern) = true.
Proof.
  unfold CynthionInjector.pattern_str.
  induction pattern as [|x [|y rest] IH]; [done | apply str_ascii |].
  change (PyFormat.join "," (map PyFormat.str (x :: y :: rest)))
    with (PyFormat.str x +:+ "," +:+ PyFormat.join "," (map PyFormat.str (y :: rest))).
  by rewrite !all_ascii_app, str_ascii, IH.
Qed.

(** X18. Whatever its arguments and whatever the port does, every method
    of the injector writes only lines of the command protocol: each
    write is pure ASCII, starts with [nozen.] and ends with a newline.
    A name or message with a character above 127 is not written at all:
    [recoil_add], [recoil_delete], [recoil_get] and [print_message] then
    raise before they touch the port; otherwise the first thing they do
    is to write the whole command. *)
Theorem injector_writes_nozen_lines (p : CynthionInjector.port) :
  ((∀ x y, CynthionInjector.writes_nozen_lines (CynthionInjector.move p x y))
    ∧ (∀ x y, CynthionInjector.writes_nozen_lines (CynthionInjector.moveto p x y))
    ∧ CynthionInjector.writes_nozen_lines (CynthionInjector.get_pos p)
    ∧ CynthionInjector.writes_nozen_lines (CynthionInjector.left_press p)
    ∧ CynthionInjector.writes_nozen_lines (CynthionInjector.left_release p)
    ∧ CynthionInjector.writes_nozen_lines (CynthionInjector.right_press p)
    ∧ CynthionInjector.writes_nozen_lines (CynthionInjector.right_release p)
    ∧ CynthionInjector.writes_nozen_lines (CynthionInjector.middle_press p)
    ∧ CynthionInjector.writes_nozen_lines (CynthionInjector.middle_release p)
    ∧ CynthionInjector.writes_nozen_lines (CynthionInjector.side1_press p)
    ∧ CynthionInjector.writes_nozen_lines (CynthionInjector.side1_release p)
    ∧ CynthionInjector.writes_nozen_lines (CynthionInjector.side2_press p)
    ∧ CynthionInjector.writes_nozen_lines (CynthionInjector.side2_release p)
    ∧ (∀ n, CynthionInjector.writes_nozen_lines (CynthionInjector.wheel p n))
    ∧ CynthionInjector.writes_nozen_lines (CynthionInjector.left_click p)
    ∧ CynthionInjector.writes_nozen_lines (CynthionInjector.right_click p)
    ∧ CynthionInjector.writes_nozen_lines (CynthionInjector.middle_click p)
    ∧ (∀ name pattern,
         CynthionInjector.writes_nozen_lines (CynthionInjector.recoil_add p name pattern))
    ∧ (∀ name,
         CynthionInjector.writes_nozen_lines (CynthionInjector.recoil_delete p name))
    ∧ (∀ rounds,
         CynthionInjector.writes_nozen_lines (CynthionInjector.recoil_list p rounds))
    ∧ (∀ name,
         CynthionInjector.writes_nozen_lines (CynthionInjector.recoil_get p name))
    ∧ (∀ rounds,
         CynthionInjector.writes_nozen_lines (CynthionInjector.recoil_names p rounds))
    ∧ (∀ message,
         CynthionInjector.writes_nozen_lines (CynthionInjector.print_message p message))
    ∧ CynthionInjector.writes_nozen_lines (CynthionInjector.restart p))
  ∧ (∀ name pattern,
       CynthionInjector.sends_or_raises
         (CynthionInjector.recoil_add p name pattern) name
         (CynthionInjector.recoil_add_cmd name pattern))
  ∧ (∀ name,
       CynthionInjector.sends_or_raises
         (CynthionInjector.recoil_delete p name) name
         (CynthionInjector.recoil_delete_cmd name))
  ∧ (∀ name,
       CynthionInjector.sends_or_raises
         (CynthionInjector.recoil_get p name) name
         (CynthionInjector.recoil_get_cmd name))
  ∧ (∀ message,
       CynthionInjector.sends_or_raises
         (CynthionInjector.print_message p message) message
         (CynthionInjector.print_cmd message)).
Proof.
  split; [apply injector_line_shapes|].
  split; [|split; [|split]].
  - intros name pattern. unfold CynthionInjector.recoil_add.
    apply text_command_run. unfold CynthionInjector.recoil_add_cmd.
    rewrite !all_ascii_app, pattern_str_ascii.
    by destruct (CynthionInjector.all_ascii name).
  - intros name. unfold CynthionInjector.recoil_delete.
    apply text_command_run. unfold CynthionInjector.recoil_delete_cmd.
    rewrite !all_ascii_app. by destruct (CynthionInjector.all_ascii name).
  - intros name. unfold CynthionInjector.recoil_get.
    apply text_command_run. unfold CynthionInjector.recoil_get_cmd.
    rewrite !all_ascii_app. by destruct (CynthionInjector.all_ascii name).
  - intros message. unfold CynthionInjector.print_message.
    apply text_command_run. unfold CynthionInjector.print_cmd.
    rewrite !all_ascii_app. by destruct (CynthionInjector.all_ascii message).
Qed.

(** A name with the character 0xe9 in it. *)
Lemma injector_writes_nozen_lines_witness :
  CynthionInjector.recoil_delete CynthionInjector.silent_port
    (String (ascii_of_nat 233) "t") (CynthionInjector.Injector 0 0) []
  = (CynthionInjector.Raised, CynthionInjector.Injector 0 0, [])
  ∧ ∃ rest,
      CynthionInjector.log_of
        (CynthionInjector.recoil_delete CynthionInjector.silent_port "ak47"
           (CynthionInjector.Injector 0 0) [])
      = CynthionInjector.SerWrite (CynthionInjector.recoil_delete_cmd "ak47") :: rest.
Proof.
  destruct (injector_writes_nozen_lines CynthionInjector.silent_port)
    as (_ & _ & Hdelete & _).
  split.
  - apply (Hdelete (String (ascii_of_nat 233) "t")
             (CynthionInjector.Injector 0 0) []). reflexivity.
  - apply (Hdelete "ak47" (CynthionInjector.Injector 0 0) []). reflexivity.
Defined.

(** ** Clicks and answers *)

Lemma click_run (p : CynthionInjector.port) (press release : string) :
  CynthionInjector.click_protocol p
    (CynthionInjector.button_line p press
       ≫= λ _, CynthionInjector.sleep 50
       ≫= λ _, CynthionInjector.button_line p release)
    (press +:+ CynthionInjector.nl) (release +:+ CynthionInjector.nl).
Proof.
  intros st log pressed. subst pressed.
  unfold CynthionInjector.button_line, mbind, CynthionInjector.act_bind,
    CynthionInjector.ser_write, CynthionInjector.sleep.
  destruct (CynthionInjector.tx_ok p log (press +:+ CynthionInjector.nl));
    [|reflexivity].
  rewrite <- !app_assoc. cbn [app].
  destruct (CynthionInjector.tx_ok p _ (release +:+ CynthionInjector.nl));
    [|reflexivity].
  reflexivity.
Qed.

(** X19. A click is a press and a release in that order.  [left_click],
    [right_click] and [middle_click] write the press line, wait, and
    write the release line of the same button; when the press is refused
    the release is never attempted; the tracked position is unchanged. *)
Theorem clicks_press_then_release (p : CynthionInjector.port) :
  CynthionInjector.click_protocol p (CynthionInjector.left_click p)
    ("nozen.left(1)" +:+ CynthionInjector.nl)
    ("nozen.left(0)" +:+ CynthionInjector.nl)
  ∧ CynthionInjector.click_protocol p (CynthionInjector.right_click p)
      ("nozen.right(1)" +:+ CynthionInjector.nl)
      ("nozen.right(0)" +:+ CynthionInjector.nl)
  ∧ CynthionInjector.click_protocol p (CynthionInjector.middle_click p)
      ("nozen.middle(1)" +:+ CynthionInjector.nl)
      ("nozen.middle(0)" +:+ CynthionInjector.nl).
Proof. repeat split; apply click_run. Qed.

Lemma decode_ignore_ascii (data : string) :
  CynthionInjector.all_ascii (CynthionInjector.decode_ignore data) = true.
Proof.
  induction data as [|c data IH]; [done|]. cbn [CynthionInjector.decode_ignore].
  destruct (CynthionInjector.is_ascii c) eqn:Hc; [|exact IH].
  cbn [CynthionInjector.all_ascii]. by rewrite Hc, IH.
Qed.

Lemma lstrip_ascii (s : string) :
  CynthionInjector.all_ascii s = true →
  CynthionInjector.all_ascii (CynthionInjector.lstrip s) = true.
Proof.
  induction s as [|c s IH]; [done|]. cbn [CynthionInjector.lstrip].
  destruct (CynthionInjector.is_space c); [|done].
  cbn [CynthionInjector.all_ascii]. intros [_ Hs]%andb_true_iff. by apply IH.
Qed.

Lemma rstrip_ascii (s : string) :
  CynthionInjector.all_ascii s = true →
  CynthionInjector.all_ascii (CynthionInjector.rstrip s) = true.
Proof.
  induction s as [|c s IH]; [done|].
  cbn [CynthionInjector.all_ascii CynthionInjector.rstrip].
  intros [Hc Hs]%andb_true_iff. specialize (IH Hs).
  destruct (CynthionInjector.rstrip s) as [|k kept].
  - destruct (CynthionInjector.is_space c); [done|].
    cbn [CynthionInjector.all_ascii]. by rewrite Hc.
  - cbn [CynthionInjector.all_ascii] in *. by rewrite Hc, IH.
Qed.

Lemma rstrip_idempotent (s : string) :
  CynthionInjector.rstrip (CynthionInjector.rstrip s) = CynthionInjector.rstrip s.
Proof.
  induction s as [|c s IH]; [done|]. cbn [CynthionInjector.rstrip].
  destruct (CynthionInjector.rstrip s) as [|k kept] eqn:Hr.
  - destruct (CynthionInjector.is_space c) eqn:Hc; [done|].
    cbn [CynthionInjector.rstrip]. by rewrite Hc.
  - change (CynthionInjector.rstrip (String c (String k kept)))
      with (match CynthionInjector.rstrip (String k kept) with
            | EmptyString =>
                if CynthionInjector.is_space c then EmptyString
                else String c EmptyString
            | kept' => String c kept'
            end).
    by rewrite IH.
Qed.

Lemma rstrip_head (c : ascii) (s : string) :
  CynthionInjector.is_space c = false →
  ∃ rest, CynthionInjector.rstrip (String c s) = String c rest.
Proof.
  intros Hc. cbn [CynthionInjector.rstrip].
  destruct (CynthionInjector.rstrip s); rewrite ?Hc; eauto.
Qed.

Lemma lstrip_head (s : string) :
  CynthionInjector.lstrip s = EmptyString
  ∨ ∃ c rest, CynthionInjector.lstrip s = String c rest
              ∧ CynthionInjector.is_space c = false.
Proof.
  induction s as [|c s IH]; [by left|]. cbn [CynthionInjector.lstrip].
  destruct (CynthionInjector.is_space c) eqn:Hc; [exact IH|].
  right. eauto.
Qed.

Lemma strip_idempotent (s : string) :
  CynthionInjector.strip (CynthionInjector.strip s) = CynthionInjector.strip s.
Proof.
  unfold CynthionInjector.strip.
  destruct (lstrip_head s) as [->|(c & rest & -> & Hc)]; [done|].
  destruct (rstrip_head c rest Hc) as [kept Hk].
  rewrite Hk at 1. cbn [CynthionInjector.lstrip]. rewrite Hc, <- Hk.
  apply rstrip_idempotent.
Qed.

(** X20. [get_pos] sends the query and looks once, 50 ms later.  If
    nothing is waiting it returns [None] without reading; otherwise it
    returns the first line with the non-ASCII bytes dropped and the white
    space at both ends removed, so stripping it again changes nothing. *)
Theorem get_pos_response (p : CynthionInjector.port)
    (st : CynthionInjector.injector) (log : list CynthionInjector.ser_op) :
  CynthionInjector.tx_ok p log CynthionInjector.getpos_cmd = true →
  let sent := log ++ [CynthionInjector.SerWrite CynthionInjector.getpos_cmd;
                      CynthionInjector.SerSleep 50] in
  (CynthionInjector.waiting p sent = 0 →
   CynthionInjector.get_pos p st log
   = (CynthionInjector.Returned None, st, sent ++ [CynthionInjector.SerWaiting]))
  ∧ (CynthionInjector.waiting p sent ≠ 0 →
     ∃ response,
       CynthionInjector.get_pos p st log
       = (CynthionInjector.Returned (Some response), st,
          sent ++ [CynthionInjector.SerWaiting; CynthionInjector.SerReadline])
       ∧ response
         = CynthionInjector.strip
             (CynthionInjector.decode_ignore
                (CynthionInjector.incoming p (sent ++ [CynthionInjector.SerWaiting])))
       ∧ CynthionInjector.all_ascii response = true
       ∧ CynthionInjector.strip response = response).
Proof.
  intros Hok sent. subst sent.
  unfold CynthionInjector.get_pos, CynthionInjector.write_cmd.
  change (CynthionInjector.all_ascii CynthionInjector.getpos_cmd) with true.
  unfold CynthionInjector.response_if_waiting, mbind, CynthionInjector.act_bind,
    CynthionInjector.ser_write, CynthionInjector.sleep,
    CynthionInjector.in_waiting, CynthionInjector.read_response, mret,
    CynthionInjector.act_ret.
  cbv beta iota. rewrite Hok. cbv beta iota.
  rewrite <- !app_assoc. cbn [app]. split.
  - intros ->. reflexivity.
  - intros Hne. unfold nonzero.
    destruct (Z.eqb_spec (CynthionInjector.waiting p
                (log ++ [CynthionInjector.SerWrite CynthionInjector.getpos_cmd;
                         CynthionInjector.SerSleep 50])) 0) as [?|_]; [done|].
    cbn [negb]. cbv beta iota. rewrite <- !app_assoc. cbn [app].
    eexists. split; [reflexivity|]. split; [reflexivity|]. split.
    + unfold CynthionInjector.strip.
      apply rstrip_ascii, lstrip_ascii, decode_ignore_ascii.
    + apply strip_idempotent.
Qed.

Lemma get_pos_response_witness :
  CynthionInjector.get_pos CynthionInjector.silent_port
    (CynthionInjector.Injector 0 0) []
  = (CynthionInjector.Returned None, CynthionInjector.Injector 0 0,
     [CynthionInjector.SerWrite CynthionInjector.getpos_cmd;
      CynthionInjector.SerSleep 50; CynthionInjector.SerWaiting])
  ∧ ∃ response,
      CynthionInjector.get_pos CynthionInjector.position_port
        (CynthionInjector.Injector 0 0) []
      = (CynthionInjector.Returned (Some response), CynthionInjector.Injector 0 0,
         [CynthionInjector.SerWrite CynthionInjector.getpos_cmd;
          CynthionInjector.SerSleep 50; CynthionInjector.SerWaiting;
          CynthionInjector.SerReadline])
      ∧ response = "km.pos(100,200)".
Proof.
  split.
  - apply (get_pos_response CynthionInjector.silent_port
             (CynthionInjector.Injector 0 0) []); reflexivity.
  - destruct (get_pos_response CynthionInjector.position_port
                (CynthionInjector.Injector 0 0) []) as [_ Hsome]; [reflexivity|].
    destruct Hsome as (response & Hrun & Hval & _); [discriminate|].
    exists response. split; [exact Hrun | exact Hval].
Defined.

(** ** The text of a recoil pattern *)

Lemma digit_char_is_digit (d : Z) :
  0 ≤ d < 10 → is_digit_char (PyFormat.digit_char d) = true.
Proof.
  intros Hd.
  assert (Hcases : d = 0 ∨ d = 1 ∨ d = 2 ∨ d = 3 ∨ d = 4 ∨ d = 5 ∨ d = 6
                   ∨ d = 7 ∨ d = 8 ∨ d = 9) by lia.
  repeat (destruct Hcases as [->|Hcases]; [by vm_compute|]).
  subst d. by vm_compute.
Qed.

Lemma digits_are_digits (fuel : nat) (n : Z) :
  0 ≤ n → chars_all is_digit_char (PyFormat.digits 10 fuel n) = true.
Proof.
  revert n. induction fuel as [|fuel IH]; intros n Hn; [done|].
  cbn [PyFormat.digits]. destruct (Z.ltb_spec n 10) as [Hlt|Hge].
  - cbn [chars_all]. by rewrite digit_char_is_digit by lia.
  - rewrite chars_all_app, IH by (apply Z.div_pos; lia).
    cbn [chars_all].
    by rewrite digit_char_is_digit by (apply Z.mod_pos_bound; lia).
Qed.

Lemma list_ascii_app (a b : string) :
  list_ascii_of_string (a +:+ b)
  = list_ascii_of_string a ++ list_ascii_of_string b.
Proof.
  induction a as [|c a IH]; [done|].
  rewrite string_app_cons. cbn [list_ascii_of_string app]. by rewrite IH.
Qed.

Lemma decimal_value_snoc (s : string) (c : ascii) :
  decimal_value (s +:+ String c EmptyString)
  = 10 * decimal_value s + (Z.of_nat (nat_of_ascii c) - 48).
Proof.
  unfold decimal_value. rewrite list_ascii_app, fold_left_app. reflexivity.
Qed.

Lemma digits_value (fuel : nat) (n : Z) :
  0 ≤ n < 2 ^ Z.of_nat fuel → decimal_value (PyFormat.digits 10 fuel n) = n.
Proof.
  revert n. induction fuel as [|fuel IH]; intros n Hn.
  - simpl in Hn. assert (n = 0) as -> by lia. reflexivity.
  - cbn [PyFormat.digits]. destruct (Z.ltb_spec n 10) as [Hlt|Hge].
    + unfold decimal_value. cbn [list_ascii_of_string fold_left].
      rewrite (proj2 (decimal_digit_char n ltac:(lia))). lia.
    + rewrite decimal_value_snoc.
      rewrite (proj2 (decimal_digit_char (n mod 10)
                        ltac:(apply Z.mod_pos_bound; lia))).
      rewrite IH.
      * symmetry. apply Z.div_mod. lia.
      * rewrite Nat2Z.inj_succ, Z.pow_succ_r in Hn by lia.
        split; [apply Z.div_pos; lia|].
        apply Z.div_lt_upper_bound; lia.
Qed.

Lemma digits_of_value (n : Z) :
  0 ≤ n →
  decimal_value (PyFormat.digits_of 10 n) = n
  ∧ ∃ c rest, PyFormat.digits_of 10 n = String c rest ∧ is_digit_char c = true.
Proof.
  intros Hn. unfold PyFormat.digits_of. split.
  - apply digits_value. split; [lia|].
    rewrite Nat2Z.inj_succ, Z2Nat.id by apply Z.log2_nonneg.
    destruct (Z.eq_dec n 0) as [->|Hnz]; [done|].
    apply Z.log2_spec. lia.
  - assert (Hlen := digits_nonempty 10 (Z.to_nat (Z.log2 n)) n).
    assert (Hall := digits_are_digits (S (Z.to_nat (Z.log2 n))) n Hn).
    destruct (PyFormat.digits 10 (S (Z.to_nat (Z.log2 n))) n) as [|c rest].
    + simpl in Hlen. lia.
    + cbn [chars_all] in Hall. apply andb_true_iff in Hall as [Hc _]. eauto.
Qed.

(** Reading a numeral that [str] wrote gives the number back. *)
Lemma numeral_value_str (n : Z) : numeral_value (PyFormat.str n) = n.
Proof.
  unfold PyFormat.str. destruct (Z.ltb_spec n 0) as [Hneg|Hpos].
  - rewrite string_app_cons, string_app_empty_l. cbn [numeral_value].
    change (Ascii.eqb "-" "-") with true. cbv iota.
    rewrite (proj1 (digits_of_value (- n) ltac:(lia))). lia.
  - destruct (digits_of_value n Hpos) as [Hval (c & rest & Heq & Hc)].
    rewrite Heq in *. cbn [numeral_value].
    destruct (Ascii.eqb_spec c "-") as [->|_]; [discriminate Hc | exact Hval].
Qed.

Lemma str_not_comma (n : Z) : chars_all not_comma (PyFormat.str n) = true.
Proof.
  apply (chars_all_impl decimal_char); [|apply str_decimal].
  intros c Hc. unfold not_comma. by apply (decimal_char_not c ",").
Qed.

Lemma split_commas_field (a rest cur : string) :
  chars_all not_comma a = true →
  split_commas (a +:+ rest) cur = split_commas rest (cur +:+ a).
Proof.
  revert cur. induction a as [|c a IH]; intros cur Ha.
  - by rewrite string_app_empty_l, string_app_empty_r.
  - cbn [chars_all] in Ha. apply andb_true_iff in Ha as [Hc Ha].
    rewrite string_app_cons. cbn [split_commas].
    unfold not_comma in Hc. apply negb_true_iff in Hc. rewrite Hc.
    rewrite IH by exact Ha. by rewrite string_app_assoc.
Qed.

Lemma split_commas_join (x : string) (xs : list string) (cur : string) :
  Forall (λ f, chars_all not_comma f = true) (x :: xs) →
  split_commas (PyFormat.join "," (x :: xs)) cur = (cur +:+ x) :: xs.
Proof.
  revert x cur. induction xs as [|y ys IH]; intros x cur Hall.
  - apply Forall_cons in Hall as [Hx _]. cbn [PyFormat.join].
    rewrite <- (string_app_empty_r x) at 1.
    by rewrite split_commas_field.
  - apply Forall_cons in Hall as [Hx Hrest].
    change (PyFormat.join "," (x :: y :: ys))
      with (x +:+ "," +:+ PyFormat.join "," (y :: ys)).
    rewrite split_commas_field by exact Hx.
    rewrite string_app_cons, string_app_empty_l. cbn [split_commas].
    change (Ascii.eqb "," ",") with true. cbv iota.
    by rewrite IH, string_app_empty_l.
Qed.

Lemma parse_pattern_str (pattern : list Z) :
  pattern ≠ [] →
  parse_pattern (CynthionInjector.pattern_str pattern) = pattern.
Proof.
  destruct pattern as [|x xs]; [done|]. intros _.
  unfold parse_pattern, CynthionInjector.pattern_str. cbn [map].
  rewrite split_commas_join.
  - rewrite string_app_empty_l. cbn [map]. rewrite numeral_value_str. f_equal.
    rewrite map_map. rewrite <- (map_id xs) at 2.
    apply map_ext. intros n. apply numeral_value_str.
  - apply Forall_cons. split; [apply str_not_comma|].
    apply Forall_forall. intros f Hf.
    apply list_elem_of_In, in_map_iff in Hf as (n & <- & _). apply str_not_comma.
Qed.

Lemma join_comma_count (fields : list string) :
  Forall (λ f, chars_all not_comma f = true) fields →
  fields ≠ [] →
  (PyFormat.count "," (PyFormat.join "," fields) + 1 = length fields)%nat.
Proof.
  induction fields as [|f rest IH]; intros Hall Hne; [done|].
  apply Forall_cons in Hall as [Hf Hrest].
  assert (Hzero : PyFormat.count "," f = 0%nat) by (by apply count_absent).
  destruct rest as [|g rest'].
  - simpl. lia.
  - specialize (IH Hrest ltac:(done)).
    change (PyFormat.join "," (f :: g :: rest'))
      with (f +:+ "," +:+ PyFormat.join "," (g :: rest')).
    rewrite !count_app, Hzero.
    change (PyFormat.count "," ",") with 1%nat. simpl length in *. lia.
Qed.

(** X21. The pattern text of [recoil_add] loses nothing.  A non-empty
    pattern of [n] integers is written as [n] decimal numerals separated
    by [n - 1] commas, and two patterns with the same text are the same
    pattern, whatever the sign and size of their values. *)
Theorem pattern_str_lossless (pattern1 pattern2 : list Z) :
  (pattern1 ≠ [] →
     PyFormat.count "," (CynthionInjector.pattern_str pattern1)
     = (length pattern1 - 1)%nat)
  ∧ (CynthionInjector.pattern_str pattern1 = CynthionInjector.pattern_str pattern2 →
     pattern1 = pattern2).
Proof.
  split.
  - intros Hne.
    assert (Hcount := join_comma_count (map PyFormat.str pattern1)).
    rewrite length_map in Hcount. unfold CynthionInjector.pattern_str.
    enough (PyFormat.count "," (PyFormat.join "," (map PyFormat.str pattern1)) + 1
            = length pattern1)%nat by lia.
    apply Hcount.
    + apply Forall_forall. intros f Hf.
      apply list_elem_of_In, in_map_iff in Hf as (n & <- & _). apply str_not_comma.
    + by destruct pattern1.
  - intros Heq.
    assert (Hempty : ∀ x xs, CynthionInjector.pattern_str (x :: xs) ≠ EmptyString).
    { intros x xs Hnil.
      assert (Hp := parse_pattern_str (x :: xs) ltac:(done)).
      rewrite Hnil in Hp. injection Hp as <- <-.
      discriminate Hnil. }
    destruct pattern1 as [|x xs], pattern2 as [|y ys]; [done | | |].
    + symmetry in Heq. by apply Hempty in Heq.
    + by apply Hempty in Heq.
    + rewrite <- (parse_pattern_str (x :: xs)), <- (parse_pattern_str (y :: ys)), Heq
        by done.
      reflexivity.
Qed.

Lemma pattern_str_lossless_witness :
  PyFormat.count "," (CynthionInjector.pattern_str [10; -5; 100; 20; -10; 150])
  = 5%nat
  ∧ [10; -5; 100; 20; -10; 150] = [10; -5; 100; 20; -10; 150].
Proof.
  destruct (pattern_str_lossless [10; -5; 100; 20; -10; 150]
              [10; -5; 100; 20; -10; 150]) as [Hcount Hinj].
  split; [apply Hcount; discriminate | apply Hinj; reflexivity].
Defined.

(** ** Splitting a pattern into triplets *)






(** * The polling rate of the monitors *)



(** ** The descriptor command with values that are not bytes *)

Lemma digit_char_not_comma (d : Z) : not_comma (PyFormat.digit_char d) = true.
Proof.
  destruct d as [|p|p]; [reflexivity | | reflexivity].
  repeat (destruct p as [p|p|]; try reflexivity).
Qed.

Lemma digits_not_comma (base : Z) (fuel : nat) (n : Z) :
  chars_all not_comma (PyFormat.digits base fuel n) = true.
Proof.
  revert n. induction fuel as [|fuel IH]; intros n; [done|].
  cbn [PyFormat.digits]. destruct (n <? base).
  - cbn [chars_all]. by rewrite digit_char_not_comma.
  - rewrite chars_all_app, IH. cbn [chars_all].
    by rewrite digit_char_not_comma.
Qed.

Lemma zeros_not_comma (k : nat) : chars_all not_comma (PyFormat.zeros k) = true.
Proof. induction k as [|k IH]; [done|]. cbn [PyFormat.zeros chars_all]. by rewrite IH. Qed.

Lemma format_02x_not_comma (b : Z) :
  chars_all not_comma (PyFormat.format_02x b) = true.
Proof.
  unfold PyFormat.format_02x, PyFormat.zfill, PyFormat.digits_of.
  destruct (b <? 0).
  - rewrite string_app_cons, string_app_empty_l. cbn [chars_all].
    by rewrite chars_all_app, zeros_not_comma, digits_not_comma.
  - by rewrite chars_all_app, zeros_not_comma, digits_not_comma.
Qed.

(** The groups between the commas of the payload are the renderings of
    the values, one per value. *)
Lemma hex_str_groups (descriptor_bytes : list Z) :
  descriptor_bytes ≠ [] →
  split_commas (DescriptorTester.hex_str descriptor_bytes) EmptyString
  = map PyFormat.format_02x descriptor_bytes.
Proof.
  destruct descriptor_bytes as [|x xs]; [done|]. intros _.
  unfold DescriptorTester.hex_str. cbn [map].
  rewrite split_commas_join; [by rewrite string_app_empty_l|].
  apply Forall_cons. split; [apply format_02x_not_comma|].
  apply Forall_forall. intros g Hg.
  apply list_elem_of_In, in_map_iff in Hg as (y & <- & _).
  apply format_02x_not_comma.
Qed.

Lemma two_digit_hex_no_minus (b : Z) :
  0 ≤ b < 256 → Ascii.eqb (spec_hex_digit (b / 16)) "-" = false.
Proof.
  intros Hb. apply negb_true_iff.
  apply (byte_cases (λ b, negb (Ascii.eqb (spec_hex_digit (b / 16)) "-")));
    [vm_compute; reflexivity | exact Hb].
Qed.

(** The rendering of a value that is not a byte is the rendering of no
    byte. *)
Lemma format_02x_not_a_byte (b b' : Z) :
  b < 0 ∨ 255 < b → 0 ≤ b' ≤ 255 →
  PyFormat.format_02x b ≠ PyFormat.format_02x b'.
Proof.
  intros Hout Hbyte Heq. rewrite (format_02x_byte b') in Heq by lia.
  destruct (format_02x_wide b) as [Hwide Hminus].
  destruct Hout as [Hneg|Hbig].
  - destruct (Hminus Hneg) as [rest Hrest]. rewrite Hrest in Heq.
    unfold spec_two_digit_hex in Heq. injection Heq as Hc _.
    assert (Hno := two_digit_hex_no_minus b' ltac:(lia)).
    rewrite <- Hc in Hno. discriminate Hno.
  - assert (Hlen := Hwide ltac:(lia)). rewrite Heq in Hlen.
    unfold spec_two_digit_hex in Hlen. simpl in Hlen. lia.
Qed.

Lemma string_app_inv_head (s x y : string) : s +:+ x = s +:+ y → x = y.
Proof.
  induction s as [|c s IH]; [done|].
  rewrite !string_app_cons. intros [= Heq]. by apply IH.
Qed.

Lemma string_app_inv_tail (x y t : string) : x +:+ t = y +:+ t → x = y.
Proof.
  intros Heq. apply (f_equal list_ascii_of_string) in Heq.
  rewrite !list_ascii_app in Heq. apply app_inv_tail in Heq.
  rewrite <- (string_of_list_ascii_of_string x),
    <- (string_of_list_ascii_of_string y).
  by rewrite Heq.
Qed.

(** X15. [add_descriptor] does not check its bytes.  A list with a value
    outside [0, 255] is still turned into a command, with one group per
    value between the commas; the group of such a value has three or
    more characters or a leading minus sign, so the command is the
    command of no list of bytes. *)
Theorem add_descriptor_unchecked_bytes (device_addr interface : Z)
    (descriptor_bytes : list Z) (b : Z) :
  b ∈ descriptor_bytes → b < 0 ∨ 255 < b →
  split_commas (DescriptorTester.hex_str descriptor_bytes) EmptyString
  = map PyFormat.format_02x descriptor_bytes
  ∧ (255 < b → (3 ≤ String.length (PyFormat.format_02x b))%nat)
  ∧ (b < 0 → ∃ rest, PyFormat.format_02x b = String "-" rest)
  ∧ ∀ bytes, Forall (λ x, 0 ≤ x ≤ 255) bytes →
      DescriptorTester.add_descriptor_cmd device_addr interface descriptor_bytes
      ≠ DescriptorTester.add_descriptor_cmd device_addr interface bytes.
Proof.
  intros Hin Hout.
  assert (Hne : descriptor_bytes ≠ []) by (intros ->; by apply elem_of_nil in Hin).
  assert (Hgroups := hex_str_groups descriptor_bytes Hne).
  destruct (format_02x_wide b) as [Hwide Hminus].
  split; [exact Hgroups|]. split; [intros ?; apply Hwide; lia|].
  split; [exact Hminus|].
  intros bytes Hbytes Hcmd.
  unfold DescriptorTester.add_descriptor_cmd in Hcmd.
  do 5 apply string_app_inv_head in Hcmd.
  apply string_app_inv_tail in Hcmd.
  assert (Hrendered : PyFormat.format_02x b ∈ map PyFormat.format_02x bytes
                      ∨ PyFormat.format_02x b = EmptyString).
  { destruct bytes as [|y ys].
    - right. rewrite Hcmd in Hgroups. cbn in Hgroups.
      apply list_elem_of_In, (in_map PyFormat.format_02x) in Hin.
      rewrite <- Hgroups in Hin. destruct Hin as [<-|[]]. reflexivity.
    - left. rewrite Hcmd, hex_str_groups in Hgroups by done.
      rewrite Hgroups. apply list_elem_of_In, in_map, list_elem_of_In, Hin. }
  destruct Hrendered as [Hsame|Hempty].
  - apply list_elem_of_In, in_map_iff in Hsame as (b' & Heq & Hb').
    apply list_elem_of_In in Hb'. rewrite Forall_forall in Hbytes.
    by apply (format_02x_not_a_byte b b' Hout (Hbytes b' Hb')).
  - destruct Hout as [Hneg|Hbig].
    + destruct (Hminus Hneg) as [rest Hrest]. congruence.
    + assert (Hlen := Hwide ltac:(lia)). rewrite Hempty in Hlen.
      simpl in Hlen. lia.
Qed.

Lemma add_descriptor_unchecked_bytes_witness :
  split_commas (DescriptorTester.hex_str [0x05; 0x1ff; -5]) EmptyString
  = ["05"; "1ff"; "-5"]
  ∧ DescriptorTester.add_descriptor_cmd 1 0 [0x05; 0x1ff; -5]
    ≠ DescriptorTester.add_descriptor_cmd 1 0 [0x05; 0xff; 0x05].
Proof.
  destruct (add_descriptor_unchecked_bytes 1 0 [0x05; 0x1ff; -5] 0x1ff)
    as (Hgroups & _ & _ & Hdiffer).
  - apply list_elem_of_In. simpl. tauto.
  - lia.
  - split; [exact Hgroups|]. apply Hdiffer. repeat constructor; lia.
Defined.
